(** * Synvox/base: routing, dispatch and request-scoped getters

    A shallow embedding of index.ts, path-match.ts and router.ts.

    Conventions of the embedding.
    - A JavaScript string is a Rocq [string] holding its UTF-8 bytes, so
      [Buffer.byteLength] is [String.length]; the source only concatenates
      strings, tests and removes a trailing ['/'] and splits on a delimiter,
      all of which act the same on UTF-8 bytes.
    - Object identity (requests, routers, promises) is a natural number, an
      address in an explicit store.
    - A function that may throw returns a [Result]. *)

From Stdlib Require Import String Ascii NArith Lia Bool DecimalString.
From stdpp Require Import base option list gmap strings.

Open Scope string_scope.
Open Scope list_scope.

(** ** Thrown errors: [ServerError] and [createError] of index.ts

    Of a thrown error object the code reads [statusCode], [status] and
    [message]; a plain [Error] has neither status field, a [ServerError] has
    [statusCode].  A status is a number, absent when the field is. *)

Module Thrown.
Record ErrorObj := mkErrorObj {
  statusCode : option nat;
  status : option nat;
  message : string;
}.
End Thrown.
Abbreviation ErrorObj := Thrown.ErrorObj.

(** [new Error(msg)] *)
Definition plainError (msg : string) : ErrorObj :=
  {| Thrown.statusCode := None; Thrown.status := None;
     Thrown.message := msg |}.

Definition createError (code : nat) (msg : string) : ErrorObj :=
  {| Thrown.statusCode := Some code; Thrown.status := None;
     Thrown.message := msg |}.

Inductive Result (A : Type) : Type :=
| Ok (a : A)
| Throw (e : ErrorObj).
Arguments Ok {A} a.
Arguments Throw {A} e.

Definition bindR {A B} (r : Result A) (k : A -> Result B) : Result B :=
  match r with
  | Ok a => k a
  | Throw e => Throw e
  end.

(** ** [decodeURIComponent] (ECMA-262, Decode with an empty reserved set)

    A ['%'] must be followed by two hexadecimal digits.  An escaped byte
    below 0x80 stands for itself; an escaped byte from 0x80 on must start a
    well-formed UTF-8 sequence all of whose bytes are escaped.  Anything else
    is a URIError, here [None]. *)

Module URI.

Definition hex_digit (c : ascii) : option N :=
  let n := N_of_ascii c in
  if (48 <=? n)%N && (n <=? 57)%N then Some (n - 48)%N
  else if (65 <=? n)%N && (n <=? 70)%N then Some (n - 55)%N
  else if (97 <=? n)%N && (n <=? 102)%N then Some (n - 87)%N
  else None.

Inductive item :=
| Raw (c : ascii)
| Esc (b : N).

Fixpoint unescape (s : string) : option (list item) :=
  match s with
  | EmptyString => Some []
  | String c rest =>
      if Ascii.eqb c "%" then
        match rest with
        | String h (String l rest') =>
            match hex_digit h, hex_digit l with
            | Some x, Some y =>
                match unescape rest' with
                | Some items => Some (Esc (16 * x + y)%N :: items)
                | None => None
                end
            | _, _ => None
            end
        | _ => None
        end
      else
        match unescape rest with
        | Some items => Some (Raw c :: items)
        | None => None
        end
  end.

(** For a leading byte: how many continuation bytes follow and the range
    allowed for the first of them (Unicode, table of well-formed UTF-8). *)
Definition lead (b : N) : option (nat * N * N) :=
  if (194 <=? b)%N && (b <=? 223)%N then Some (1%nat, 128%N, 191%N)
  else if (b =? 224)%N then Some (2%nat, 160%N, 191%N)
  else if (225 <=? b)%N && (b <=? 236)%N then Some (2%nat, 128%N, 191%N)
  else if (b =? 237)%N then Some (2%nat, 128%N, 159%N)
  else if (238 <=? b)%N && (b <=? 239)%N then Some (2%nat, 128%N, 191%N)
  else if (b =? 240)%N then Some (3%nat, 144%N, 191%N)
  else if (241 <=? b)%N && (b <=? 243)%N then Some (3%nat, 128%N, 191%N)
  else if (b =? 244)%N then Some (3%nat, 128%N, 143%N)
  else None.

Fixpoint assemble (need : nat) (lo hi : N) (l : list item) : option string :=
  match l with
  | [] => match need with O => Some EmptyString | S _ => None end
  | Raw c :: l' =>
      match need with
      | O => String c <$> assemble O 0 0 l'
      | S _ => None
      end
  | Esc b :: l' =>
      match need with
      | O =>
          if (b <? 128)%N then String (ascii_of_N b) <$> assemble O 0 0 l'
          else
            match lead b with
            | Some (n, lo', hi') =>
                String (ascii_of_N b) <$> assemble n lo' hi' l'
            | None => None
            end
      | S k =>
          if (lo <=? b)%N && (b <=? hi)%N
          then String (ascii_of_N b) <$> assemble k 128 191 l'
          else None
      end
  end.

Definition decodeURIComponent (s : string) : option string :=
  unescape s ≫= assemble O 0 0.

End URI.

(** ** path-match.ts *)

(** [String.prototype.split] with a string separator. *)
Module JsStr.

Fixpoint strip_prefix (p s : string) : option string :=
  match p with
  | EmptyString => Some s
  | String a p' =>
      match s with
      | String b s' => if Ascii.eqb a b then strip_prefix p' s' else None
      | EmptyString => None
      end
  end.

(** [split_go sep s cur skip]: [cur] is the current piece, reversed; [skip]
    counts the characters of a separator just found that are still ahead. *)
Fixpoint split_go (sep : string) (s : string) (cur : string) (skip : nat)
  : list string :=
  match s with
  | EmptyString => [String.rev cur]
  | String c s' =>
      match skip with
      | S k => split_go sep s' cur k
      | O =>
          match strip_prefix sep s with
          | Some _ =>
              String.rev cur
                :: split_go sep s' EmptyString (String.length sep - 1)
          | None => split_go sep s' (String c cur) O
          end
      end
  end.

Fixpoint chars (s : string) : list string :=
  match s with
  | EmptyString => []
  | String c s' => String c EmptyString :: chars s'
  end.

Definition split (sep s : string) : list string :=
  match sep with
  | EmptyString => chars s
  | _ => split_go sep s EmptyString O
  end.

Definition endsWith (s suffix : string) : bool :=
  let n := String.length s in
  let k := String.length suffix in
  (k <=? n)%nat && String.eqb (String.substring (n - k) k s) suffix.

(** [str.slice(0, -1)] *)
Definition dropLast (s : string) : string :=
  String.substring 0 (String.length s - 1) s.

End JsStr.

(** A key of path-to-regexp, with the fields the source reads. *)
Record Key := mkKey {
  name : string;
  repeat : bool;
  delimiter : string;
}.

(** What [pathToRegexp(path, keys, options)] hands back: the regular
    expression, as its [exec] ([None] for null, else the match array, whose
    index 0 is the whole match and where a group that did not take part is
    [None]), and the keys it pushed. *)
Record Compiled := mkCompiled {
  re_exec : string -> option (list (option string));
  keys : list Key;
}.

Record Options := mkOptions {
  sensitive : bool;
  strict : bool;
  end_ : bool;
}.

Inductive ParamVal :=
| PStr (s : string)
| PList (l : list string).

Abbreviation Params := (gmap string ParamVal).

Definition dquote : string := String "034"%char EmptyString.

Definition decodeParam (param : string) : Result string :=
  match URI.decodeURIComponent param with
  | Some s => Ok s
  | None =>
      Throw (createError 400
               ("failed to decode param " +:+ dquote +:+ param +:+ dquote))
  end.

(** The [for] loop of the matcher: [i] is the index of the head of [ks] in
    the key array, [m] the match array.  The assignment
    [params[key.name] = ...] is a store in a map; that holds of every name
    but [__proto__], which JavaScript does not store as a property. *)
Fixpoint collect (i : nat) (ks : list Key) (m : list (option string))
  (params : Params) : Result Params :=
  match ks with
  | [] => Ok params
  | key :: ks' =>
      match m !! (i + 1)%nat with
      | Some (Some param) =>
          if String.eqb param "" then collect (S i) ks' m params
          else
            bindR (decodeParam param) (fun d =>
              let v := if repeat key
                       then PList (JsStr.split (delimiter key) d)
                       else PStr d in
              collect (S i) ks' m (<[name key := v]> params))
      | _ => collect (S i) ks' m params
      end
  end.

(** The function returned by [PathMatch(options)(path)], once [path] has been
    compiled: [Ok None] is [false] (no match). *)
Definition runCompiled (c : Compiled) (pathname : string)
  : Result (option Params) :=
  match re_exec c pathname with
  | None => Ok None
  | Some m => bindR (collect 0 (keys c) m ∅) (fun ps => Ok (Some ps))
  end.

Section PathMatch.
(** The library function, a dependency of the repository. *)
Variable pathToRegexp : Options -> string -> Compiled.

Definition PathMatch (options : Options) (path : string)
  : string -> Result (option Params) :=
  runCompiled (pathToRegexp options path).
End PathMatch.

(** ** A model of the library path-to-regexp

    The library is a dependency, not part of the repository.  The general
    theorems below hold for any [pathToRegexp]; the closed examples run this
    model of path-to-regexp 3.x ([parse] and [tokensToRegExp]) on the
    patterns made of literal text and [:name] parameters.  Escapes, groups
    and the modifiers [?], [*], [+] are outside the model: [parse] answers
    [None] on them. *)

Module PathToRegexp.

Inductive Token :=
| TLit (s : string)
| TKey (nm : string) (prefix : string) (delim : string).

Definition is_word (c : ascii) : bool :=
  let n := N_of_ascii c in
  ((48 <=? n)%N && (n <=? 57)%N) || ((65 <=? n)%N && (n <=? 90)%N)
  || ((97 <=? n)%N && (n <=? 122)%N) || (n =? 95)%N.

Definition starts_word (s : string) : bool :=
  match s with
  | String c _ => is_word c
  | EmptyString => false
  end.

Definition is_modifier (c : ascii) : bool :=
  Ascii.eqb c "+" || Ascii.eqb c "*" || Ascii.eqb c "?" || Ascii.eqb c "(".

Definition flush (lit : string) : list Token :=
  match lit with
  | EmptyString => []
  | _ => [TLit (String.rev lit)]
  end.

Definition close (nm : option (string * string)) : list Token :=
  match nm with
  | Some (n, pre) =>
      [TKey (String.rev n) pre
         (match pre with EmptyString => "/" | _ => pre end)]
  | None => []
  end.

(** [lit] is the pending literal text and [nm] the parameter name being
    read (with its prefix), both reversed. *)
Fixpoint parse_go (s lit : string) (nm : option (string * string))
  : option (list Token) :=
  match s with
  | EmptyString => Some (close nm ++ flush lit)
  | String c s' =>
      match nm with
      | Some (n, pre) =>
          if is_word c then parse_go s' lit (Some (String c n, pre))
          else if is_modifier c then None
          else if Ascii.eqb c "\" then None
          else if Ascii.eqb c ":" && starts_word s'
          then app (close nm) <$> parse_go s' EmptyString
                                    (Some (EmptyString, EmptyString))
          else app (close nm) <$> parse_go s' (String c lit) None
      | None =>
          if Ascii.eqb c "(" || Ascii.eqb c "\" then None
          else if Ascii.eqb c ":" && starts_word s'
          then
            match lit with
            | String p lit' =>
                app (flush lit')
                  <$> parse_go s' EmptyString
                        (Some (EmptyString, String p EmptyString))
            | EmptyString =>
                parse_go s' EmptyString (Some (EmptyString, EmptyString))
            end
          else parse_go s' (String c lit) None
      end
  end.

Definition parse (path : string) : option (list Token) :=
  parse_go path EmptyString None.

Definition token_keys (toks : list Token) : list Key :=
  omap (fun t => match t with
                 | TKey n _ d => Some (mkKey n false d)
                 | TLit _ => None
                 end) toks.

(** Case folding of the [i] flag on ASCII letters. *)
Definition lower (c : ascii) : ascii :=
  let n := N_of_ascii c in
  if (65 <=? n)%N && (n <=? 90)%N then ascii_of_N (n + 32) else c.

Definition char_eq (ci : bool) (a b : ascii) : bool :=
  if ci then Ascii.eqb (lower a) (lower b) else Ascii.eqb a b.

Fixpoint strip (ci : bool) (p s : string) : option string :=
  match p with
  | EmptyString => Some s
  | String a p' =>
      match s with
      | String b s' => if char_eq ci a b then strip ci p' s' else None
      | EmptyString => None
      end
  end.

Fixpoint mem_char (ci : bool) (c : ascii) (set : string) : bool :=
  match set with
  | EmptyString => false
  | String d set' => char_eq ci c d || mem_char ci c set'
  end.

(** The capture [([^...]+?)]: the shortest non-empty run, free of the
    excluded characters, after which the rest of the expression matches. *)
Fixpoint lazy (ci : bool) (excl : string)
  (k : string -> option (list (option string) * string))
  (s acc : string) : option (list (option string) * string) :=
  match s with
  | EmptyString => None
  | String c s' =>
      if mem_char ci c excl then None
      else
        match k s' with
        | Some (caps, rest) => Some (Some (String.rev (String c acc)) :: caps, rest)
        | None => lazy ci excl k s' (String c acc)
        end
  end.

Definition excluded (delim : string) : string :=
  if String.eqb delim "/" then "/" else delim +:+ "/".

Definition starts_slash (s : string) : bool :=
  match s with
  | String c _ => Ascii.eqb c "/"
  | EmptyString => false
  end.

(** The tail of the expression built after the tokens; the answer is what
    is left of the subject after the match. *)
Definition ending (o : Options) (endDelimited : bool) (s : string)
  : option string :=
  if end_ o then
    if String.eqb s "" then Some ""
    else if negb (strict o) && String.eqb s "/" then Some ""
    else None
  else
    if negb (strict o) && String.eqb s "/" then Some ""
    else if endDelimited then Some s
    else if String.eqb s "" || starts_slash s then Some s
    else None.

Fixpoint match_toks (o : Options) (endDelimited : bool) (toks : list Token)
  (s : string) : option (list (option string) * string) :=
  let ci := negb (sensitive o) in
  match toks with
  | [] => (fun rest => ([], rest)) <$> ending o endDelimited s
  | TLit l :: toks' =>
      strip ci l s ≫= match_toks o endDelimited toks'
  | TKey _ pre d :: toks' =>
      strip ci pre s ≫= fun s1 =>
        lazy ci (excluded d) (match_toks o endDelimited toks') s1 EmptyString
  end.

Definition isEndDelimited (toks : list Token) : bool :=
  match last toks with
  | None => true
  | Some (TLit l) => JsStr.endsWith l "/"
  | Some (TKey _ _ _) => false
  end.

Definition exec (o : Options) (toks : list Token) (s : string)
  : option (list (option string)) :=
  match match_toks o (isEndDelimited toks) toks s with
  | Some (caps, rest) =>
      Some (Some (String.substring 0 (String.length s - String.length rest) s)
              :: caps)
  | None => None
  end.

Definition pathToRegexp (o : Options) (path : string) : Compiled :=
  match parse path with
  | Some toks => {| re_exec := exec o toks; keys := token_keys toks |}
  | None => {| re_exec := fun _ => None; keys := [] |}
  end.

End PathToRegexp.

(** The two matcher factories of router.ts. *)
Definition subAppOptions : Options :=
  {| sensitive := false; strict := true; end_ := false |}.
Definition routeOptions : Options :=
  {| sensitive := false; strict := false; end_ := true |}.

(** ** index.ts: [createGetter]

    A request is known by its identity, an address.  A value is a primitive
    or a reference to an object or to a promise; two references are the same
    value exactly when they are the same address.  The state of the promises
    lives in the world, next to whatever else [computeFn] reads and writes;
    the map of a getter is private to its closure and is reached through
    the getter and its [set] only. *)

Abbreviation ReqId := nat.

Inductive Value :=
| VUndefined
| VText (s : string)
| VObject (addr : nat)
| VPromise (addr : nat).

Inductive Settlement :=
| Pending
| Fulfilled (v : Value)
| Rejected (reason : Value).

Inductive Outcome (A E : Type) :=
| Returned (a : A)
| Threw (e : E).
Arguments Returned {A E} a.
Arguments Threw {A E} e.

Module Getter.
Section createGetter.
Context {Args W : Type}.

Record World := mkWorld {
  promises : gmap nat Settlement;
  others : W;
}.

(** The function given to [createGetter]. *)
Variable handler : ReqId -> Args -> World -> Outcome Value Value * World.

(** [reqWeakMap] is the map private to the getter; [calls] is a ghost log of
    the invocations of [handler], latest first, with whether each
    returned. *)
Record State := mkState {
  reqWeakMap : gmap ReqId Value;
  world : World;
  calls : list (ReqId * bool);
}.

Definition fresh (w : World) : State :=
  {| reqWeakMap := ∅; world := w; calls := [] |}.

Definition memo (req : ReqId) (args : Args) (st : State)
  : Outcome Value Value * State :=
  match reqWeakMap st !! req with
  | Some v => (Returned v, st)
  | None =>
      match handler req args (world st) with
      | (Returned result, w') =>
          (Returned result,
           {| reqWeakMap := <[req := result]> (reqWeakMap st);
              world := w';
              calls := (req, true) :: calls st |})
      | (Threw e, w') =>
          (Threw e,
           {| reqWeakMap := reqWeakMap st;
              world := w';
              calls := (req, false) :: calls st |})
      end
  end.

Definition set (req : ReqId) (value : Value) (st : State) : State :=
  {| reqWeakMap := <[req := value]> (reqWeakMap st);
     world := world st;
     calls := calls st |}.

(** Whatever happens between two calls of the getter and does not go
    through it: promises settle, other code runs. *)
Definition elapse (w : World) (st : State) : State :=
  {| reqWeakMap := reqWeakMap st; world := w; calls := calls st |}.

Inductive Op :=
| Call (req : ReqId) (args : Args)
| Set_ (req : ReqId) (value : Value)
| Elapse (w : World).

Definition step (st : State) (op : Op) : State :=
  match op with
  | Call req args => snd (memo req args st)
  | Set_ req value => set req value st
  | Elapse w => elapse w st
  end.

Definition run (ops : list Op) (st : State) : State :=
  foldl step st ops.


Definition invocations (req : ReqId) (st : State) : nat :=
  length (filter (fun c => c.1 = req) (calls st)).

End createGetter.
Arguments World : clear implicits.
Arguments State : clear implicits.
Arguments Op : clear implicits.
End Getter.

(** ** router.ts

    Routers are mutable objects that refer to one another: a handler is a
    plain function, known by a number, or a router, known by its address in
    the heap.  A compiled matcher is the closure [PathMatch(options)(path)],
    kept as the options and the path it was built from. *)

(** What the code takes from its dependencies. *)
Record Library := mkLibrary {
  pathToRegexp : Options -> string -> Compiled;
  (** [url.parse(u, true).pathname] *)
  url_pathname : string -> string;
}.

Record Request := mkRequest {
  reqId : ReqId;
  req_method : string;
  req_url : string;
}.

(** The maps of the two getters the router writes to, [getUrlParams] and
    [getBasePath]. *)
Record ReqCache := mkReqCache {
  urlParams : gmap ReqId Params;
  basePaths : gmap ReqId string;
}.

Module Router.

Inductive HandlerRef :=
| Terminal (fn : nat)
| Mountable (router : nat).

Record Matcher := mkMatcher {
  options : Options;
  pattern : string;
}.

Definition subAppMatch (path : string) : Matcher :=
  {| options := subAppOptions; pattern := path |}.
Definition routeMatch (path : string) : Matcher :=
  {| options := routeOptions; pattern := path |}.

Record Route := mkRoute {
  method : option string;
  path : string;
  handler : HandlerRef;
  match_ : Matcher;
}.

Record RouterObj := mkRouterObj {
  basePath : string;
  routes : list Route;
}.

Abbreviation Heap := (list RouterObj).

(** [Router()] *)
Definition Router (σ : Heap) : nat * Heap :=
  (length σ, σ ++ [{| basePath := ""; routes := [] |}]).

Definition push (self : nat) (r : Route) (σ : Heap) : option Heap :=
  R ← σ !! self;
  Some (<[self := {| basePath := basePath R; routes := routes R ++ [r] |}]> σ).

Definition addRoute (self : nat) (m : string) (p : string) (h : HandlerRef)
  (σ : Heap) : option Heap :=
  R ← σ !! self;
  push self {| method := Some m; path := p; handler := h;
               match_ := routeMatch (basePath R +:+ p) |} σ.

Definition get := fun self => addRoute self "GET".
Definition head := fun self => addRoute self "HEAD".
Definition post := fun self => addRoute self "POST".
Definition put := fun self => addRoute self "PUT".
Definition delete := fun self => addRoute self "DELETE".
Definition options_ := fun self => addRoute self "OPTIONS".
Definition patch := fun self => addRoute self "PATCH".

Definition trimTrailing (str : string) : string :=
  if JsStr.endsWith str "/" then JsStr.dropLast str else str.

Definition setRoute (self i : nat) (r : Route) (σ : Heap) : Heap :=
  match σ !! self with
  | Some R =>
      <[self := {| basePath := basePath R; routes := <[i := r]> (routes R) |}]> σ
  | None => σ
  end.

(** The body of the loop of [setBasePath] for the route at index [i];
    [rec] is [setBasePath] itself. *)
Definition setBasePath_route (rec : nat -> string -> Heap -> option Heap)
  (self i : nat) (σ : Heap) : option Heap :=
  R ← σ !! self;
  route ← routes R !! i;
  match handler route with
  | Mountable sub =>
      let newPath := basePath R +:+ path route in
      let σ' := setRoute self i
                  {| method := method route; path := basePath R;
                     handler := handler route;
                     match_ := subAppMatch newPath |} σ in
      rec sub newPath σ'
  | Terminal _ =>
      let newPath := basePath R +:+ path route in
      Some (setRoute self i
              {| method := method route; path := path route;
                 handler := handler route;
                 match_ := routeMatch (trimTrailing newPath) |} σ)
  end.

(** What the second branch of that loop makes of a route. *)
Definition rederive (bp : string) (route : Route) : Route :=
  {| method := method route; path := path route; handler := handler route;
     match_ := routeMatch (trimTrailing (bp +:+ path route)) |}.

Definition plain (route : Route) : Prop :=
  exists fn, handler route = Terminal fn.

(** [None]: the call does not return (a router mounted below itself) or an
    address is not a router's. *)
Fixpoint setBasePath (fuel : nat) (self : nat) (bp : string) (σ : Heap)
  : option Heap :=
  match fuel with
  | O => None
  | S fuel' =>
      R ← σ !! self;
      let σ0 := <[self := {| basePath := bp; routes := routes R |}]> σ in
      foldl (fun acc i => acc ≫= setBasePath_route (setBasePath fuel') self i)
            (Some σ0) (seq 0 (length (routes R)))
  end.

(** [use(path, handler)]; [use(handler)] is [use("", handler)]. *)
Definition use (fuel : nat) (self : nat) (p : string) (h : HandlerRef)
  (σ : Heap) : option Heap :=
  R ← σ !! self;
  σ1 ← match h with
       | Mountable sub => setBasePath fuel sub (basePath R +:+ p) σ
       | Terminal _ => Some σ
       end;
  R1 ← σ1 !! self;
  push self {| method := None; path := p; handler := h;
               match_ := subAppMatch (basePath R1 +:+ p) |} σ1.

(** [route.method && route.method !== req.method] *)
Definition method_differs (r : Route) (req : Request) : bool :=
  match method r with
  | Some m => negb (String.eqb m "") && negb (String.eqb m (req_method req))
  | None => false
  end.

Section Dispatch.
Variable L : Library.

Definition run_match (m : Matcher) (pathname : string)
  : Result (option Params) :=
  PathMatch (pathToRegexp L) (options m) (pattern m) pathname.

Inductive Scan :=
| Selected (r : Route) (params : Params)
| NoRoute
| Raised (e : ErrorObj).

(** The loop of the router function, up to the choice of a route. *)
Fixpoint scan (rs : list Route) (req : Request) : Scan :=
  match rs with
  | [] => NoRoute
  | r :: rs' =>
      if method_differs r req then scan rs' req
      else
        match run_match (match_ r) (url_pathname L (req_url req)) with
        | Throw e => Raised e
        | Ok None => scan rs' req
        | Ok (Some params) => Selected r params
        end
  end.

(** How a request leaves the routers. *)
Inductive Dispatched :=
| Invoked (fn : nat) (c : ReqCache)
| NotFound (c : ReqCache)
| Rejects (e : ErrorObj) (c : ReqCache)
| Stuck.

Definition store (R : RouterObj) (req : Request) (params : Params)
  (c : ReqCache) : ReqCache :=
  {| urlParams := <[reqId req := params]> (urlParams c);
     basePaths := <[reqId req := basePath R]> (basePaths c) |}.

(** The router called as a handler.  [Stuck]: out of fuel (routers
    mounted in a cycle) or a dangling address. *)
Fixpoint dispatch (fuel : nat) (σ : Heap) (self : nat) (req : Request)
  (c : ReqCache) : Dispatched :=
  match fuel with
  | O => Stuck
  | S fuel' =>
      match σ !! self with
      | None => Stuck
      | Some R =>
          match scan (routes R) req with
          | NoRoute => NotFound c
          | Raised e => Rejects e c
          | Selected r params =>
              let c' := store R req params c in
              match handler r with
              | Terminal fn => Invoked fn c'
              | Mountable sub => dispatch fuel' σ sub req c'
              end
          end
      end
  end.
End Dispatch.

(** The cache a request leaves the routers with. *)
Definition cache_of (d : Dispatched) : option ReqCache :=
  match d with
  | Invoked _ c => Some c
  | NotFound c => Some c
  | Rejects _ c => Some c
  | Stuck => None
  end.

(** What registration fixes of a route, and of a heap: for each router, in
    order, the method and the handler of each of its routes, in order. *)
Definition signature (r : Route) : option string * HandlerRef :=
  (method r, handler r).

Definition shape (σ : Heap) : list (list (option string * HandlerRef)) :=
  (fun R => signature <$> routes R) <$> σ.

End Router.


(** ** index.ts: [Response], [reply] and [base]

    A handler's result is classified by the tests of [base]: [undefined],
    [null], a Buffer, a stream, a number, another object, a string, a
    boolean.  Numbers and the objects that are neither Buffers nor streams
    are left abstract, with [JSON.stringify] on them. *)

Module Dispatcher.

Inductive HeaderValue :=
| HText (s : string)
| HNumber (n : nat).

(** What [res.end] or [pipe] left on the response: [Ended chunk] records
    that [res.end] was called and what it was given.  What Node then does
    with it (it refuses a chunk that is neither text nor a Buffer, and a
    status outside 100 to 999) is not part of the model. *)
Inductive Wire (Body Stream : Type) :=
| Open
| Ended (chunk : option Body)
| Piped (s : Stream).
Arguments Open {Body Stream}.
Arguments Ended {Body Stream} chunk.
Arguments Piped {Body Stream} s.

Fixpoint lowercase (s : string) : string :=
  match s with
  | EmptyString => EmptyString
  | String c s' => String (PathToRegexp.lower c) (lowercase s')
  end.

Section base.
Context {Num Obj Stream : Type}.
Variable JSON_stringify_number : Num -> string.
Variable JSON_stringify_object : Obj -> string.

Inductive Body :=
| BUndefined
| BNull
| BBoolean (b : bool)
| BNumber (n : Num)
| BString (s : string)
| BBuffer (bytes : string)
| BStream (s : Stream)
| BObject (o : Obj).

Record Response := mkResponse {
  body : Body;
  statusCode : nat;
  headers : gmap string HeaderValue;
}.

(** [reply(body, statusCode = 200, headers = {})] *)
Definition reply (b : Body) (code : option nat)
  (hs : option (gmap string HeaderValue)) : Response :=
  {| body := b; statusCode := default 200 code; headers := default ∅ hs |}.

(** What a handler returns: a [Response] or anything else. *)
Inductive Raw :=
| Plain (b : Body)
| Structured (r : Response).

(** The response object [res] of Node: header names are kept in lower
    case. *)
Record ServerResponse := mkServerResponse {
  res_statusCode : nat;
  res_headers : gmap string HeaderValue;
  res_wire : Wire Body Stream;
}.

Definition getHeader (name : string) (res : ServerResponse)
  : option HeaderValue :=
  res_headers res !! lowercase name.

Definition setHeader (name : string) (v : HeaderValue)
  (res : ServerResponse) : ServerResponse :=
  {| res_statusCode := res_statusCode res;
     res_headers := <[lowercase name := v]> (res_headers res);
     res_wire := res_wire res |}.

Definition setStatus (code : nat) (res : ServerResponse) : ServerResponse :=
  {| res_statusCode := code;
     res_headers := res_headers res;
     res_wire := res_wire res |}.

Definition finish (w : Wire Body Stream) (res : ServerResponse)
  : ServerResponse :=
  {| res_statusCode := res_statusCode res;
     res_headers := res_headers res;
     res_wire := w |}.

(** [!res.getHeader(name)] *)
Definition unset (name : string) (res : ServerResponse) : bool :=
  match getHeader name res with
  | None => true
  | Some (HText s) => String.eqb s ""
  | Some (HNumber n) => Nat.eqb n 0
  end.

Definition defaultType (ty : string) (res : ServerResponse)
  : ServerResponse :=
  if unset "Content-Type" res
  then setHeader "Content-Type" (HText ty) res
  else res.

(** [String(str)].  At the last two lines of [base], [str] is a string,
    a boolean or [undefined]; the other cases are there for totality. *)
Definition toText (b : Body) : string :=
  match b with
  | BUndefined => "undefined"
  | BNull => "null"
  | BBoolean true => "true"
  | BBoolean false => "false"
  | BNumber n => JSON_stringify_number n
  | BString s => s
  | BBuffer bytes => bytes
  | BStream _ => "[object Object]"
  | BObject o => JSON_stringify_object o
  end.

(** [base] from [const response = ...] on. *)
Definition send (raw : Raw) (res : ServerResponse) : ServerResponse :=
  let response :=
    match raw with
    | Structured r => r
    | Plain b => reply b None None
    end in
  let res := setStatus (statusCode response) res in
  let obj := body response in
  match obj with
  | BNull => finish (Ended None) res
  | BBuffer bytes =>
      let res := defaultType "application/octet-stream" res in
      let res := setHeader "Content-Length"
                   (HNumber (String.length bytes)) res in
      finish (Ended (Some obj)) res
  | BStream s =>
      let res := defaultType "application/octet-stream" res in
      finish (Piped s) res
  | _ =>
      let '(str, res) :=
        match obj with
        | BObject o =>
            (BString (JSON_stringify_object o),
             defaultType "application/json; charset=utf-8" res)
        | BNumber n =>
            (BString (JSON_stringify_number n),
             defaultType "application/json; charset=utf-8" res)
        | _ => (obj, res)
        end in
      let res := setHeader "Content-Length"
                   (HNumber (String.length (toText str))) res in
      finish (Ended (Some str)) res
  end.

(** [a || b || 500] on the status fields of a thrown error. *)
Definition truthy (n : option nat) : option nat :=
  match n with
  | Some (S k) => Some (S k)
  | _ => None
  end.

Definition errorStatus (e : ErrorObj) : nat :=
  match truthy (Thrown.statusCode e) with
  | Some n => n
  | None =>
      match truthy (Thrown.status e) with
      | Some n => n
      | None => 500
      end
  end.

Section handler.
Context {Req : Type}.
(** The handler, awaited: what it returns or throws, and what it did to
    [res] meanwhile. *)
Variable handler :
  Req -> ServerResponse -> Outcome Raw ErrorObj * ServerResponse.

(** [console] is the list of what [console.error] was given, latest
    first. *)
Definition base (req : Req) (res : ServerResponse)
  (console : list ErrorObj) : ServerResponse * list ErrorObj :=
  match handler req res with
  | (Returned (Plain BUndefined), res') => (res', console)
  | (Returned rawResponse, res') => (send rawResponse res', console)
  | (Threw errorObj, res') =>
      let code := errorStatus errorObj in
      let msg := match code with
                 | O => "Internal Server Error"
                 | S _ => Thrown.message errorObj
                 end in
      let rawResponse :=
        Structured (reply (BString msg) (Some code) None) in
      (send rawResponse res', errorObj :: console)
  end.
End handler.
End base.

End Dispatcher.

(** ** A router served through [base]: [http.createServer(base(app))]

    The router function returns what the handler it invokes returns, the
    response [reply('Not Found', 404)] when no route is selected, and
    throws what a matcher threw.  [base] awaits that and sends it. *)

Module Server.
Section serve.
Context {Num Obj Stream : Type}.
Variable JSON_stringify_number : Num -> string.
Variable JSON_stringify_object : Obj -> string.
Variable L : Library.

Local Abbreviation Res := (@Dispatcher.ServerResponse Num Obj Stream).
Local Abbreviation RawT := (@Dispatcher.Raw Num Obj Stream).

(** The plain handlers, awaited: handler [fn] is given the request, with
    what the getters hold for it, and the response. *)
Variable terminal :
  nat -> Request -> ReqCache -> Res -> Outcome RawT ErrorObj * Res.

(** [reply('Not Found', 404)] *)
Definition notFound : RawT :=
  Dispatcher.Structured
    (Dispatcher.reply (Dispatcher.BString "Not Found") (Some 404) None).

(** The router function, awaited; [None] when it does not return. *)
Definition app (fuel : nat) (σ : Router.Heap) (self : nat) (c : ReqCache)
  (req : Request) (res : Res) : option (Outcome RawT ErrorObj * Res) :=
  match Router.dispatch L fuel σ self req c with
  | Router.Invoked fn c' => Some (terminal fn req c' res)
  | Router.NotFound _ => Some (Returned notFound, res)
  | Router.Rejects e _ => Some (Threw e, res)
  | Router.Stuck => None
  end.

End serve.
End Server.

(** ** The dependencies used by the closed examples

    [url.parse] on an origin-form request target (one that starts with
    ['/']): the pathname is what precedes the first ['?'] or ['#']. *)

Module Model.

Fixpoint pathname (u : string) : string :=
  match u with
  | EmptyString => EmptyString
  | String c u' =>
      if Ascii.eqb c "?" || Ascii.eqb c "#" then EmptyString
      else String c (pathname u')
  end.

Definition lib : Library :=
  {| pathToRegexp := PathToRegexp.pathToRegexp; url_pathname := pathname |}.

Definition emptyCache : ReqCache := {| urlParams := ∅; basePaths := ∅ |}.

Definition GET (id : ReqId) (u : string) : Request :=
  {| reqId := id; req_method := "GET"; req_url := u |}.

(** Two functions to make getters of.  The first is asynchronous: it
    starts a computation, a new pending promise, and returns it; the
    counter of the world is the next free address.  The second is the one of
    the test 'getters are can be set'. *)
Definition startAsync (req : ReqId) (args : unit) (w : Getter.World nat)
  : Outcome Value Value * Getter.World nat :=
  (Returned (VPromise (Getter.others w)),
   {| Getter.promises := <[Getter.others w := Pending]> (Getter.promises w);
      Getter.others := S (Getter.others w) |}).

Definition throwing (req : ReqId) (args : unit) (w : Getter.World nat)
  : Outcome Value Value * Getter.World nat :=
  (Threw (VText "Setter did not work"), w).

Definition world0 : Getter.World nat :=
  {| Getter.promises := ∅; Getter.others := 0 |}.

(** Numbers are naturals and objects arrays of naturals, with their JSON
    text. *)
Definition showNat (n : nat) : string :=
  NilEmpty.string_of_uint (Nat.to_uint n).

Fixpoint showItems (l : list nat) : string :=
  match l with
  | [] => ""
  | [n] => showNat n
  | n :: l' => showNat n +:+ "," +:+ showItems l'
  end.

Definition showArray (l : list nat) : string :=
  "[" +:+ showItems l +:+ "]".

Abbreviation JBody := (@Dispatcher.Body nat (list nat) nat).
Abbreviation JRaw := (@Dispatcher.Raw nat (list nat) nat).
Abbreviation JRes := (@Dispatcher.ServerResponse nat (list nat) nat).

Definition res0 : JRes :=
  {| Dispatcher.res_statusCode := 200;
     Dispatcher.res_headers := ∅;
     Dispatcher.res_wire := Dispatcher.Open |}.

Definition jbase := @Dispatcher.base nat (list nat) nat showNat showArray unit.

(** The handlers of the tests 'ends requests when errors occur' and 'sends
    numbers', and two that answer with [reply] and headers. *)
Definition throwsPlain (req : unit) (res : JRes)
  : Outcome JRaw ErrorObj * JRes :=
  (Threw (plainError "Test Error"), res).

Definition returns1234 (req : unit) (res : JRes)
  : Outcome JRaw ErrorObj * JRes :=
  (Returned (Dispatcher.Plain (Dispatcher.BNumber 1234)), res).

Definition repliesTyped (req : unit) (res : JRes)
  : Outcome JRaw ErrorObj * JRes :=
  (Returned (Dispatcher.Structured
               (Dispatcher.reply (Dispatcher.BNumber 1234) (Some 200)
                  (Some {[ "Content-Type" := Dispatcher.HText "text/plain" ]}))),
   res).

Definition repliesCustom (req : unit) (res : JRes)
  : Outcome JRaw ErrorObj * JRes :=
  (Returned (Dispatcher.Structured
               (Dispatcher.reply (Dispatcher.BString "made") (Some 201)
                  (Some {[ "Location" := Dispatcher.HText "/items/1" ]}))),
   res).

(** Route tables built through the interface of the router.  Routers are
    numbered in the order of their creation. *)

(** The test 'should hit the first qualified route', with a mount after
    it. *)
Definition firstQualified : option Router.Heap :=
  let '(app, σ) := Router.Router [] in
  σ ← Router.get app "/" (Router.Terminal 1) σ;
  σ ← Router.get app "/abc" (Router.Terminal 2) σ;
  Router.use 1 app "" (Router.Terminal 3) σ.

Definition rootRoute : Router.Route :=
  {| Router.method := Some "GET"; Router.path := "/";
     Router.handler := Router.Terminal 1;
     Router.match_ := Router.routeMatch "/" |}.
Definition abcRoute : Router.Route :=
  {| Router.method := Some "GET"; Router.path := "/abc";
     Router.handler := Router.Terminal 2;
     Router.match_ := Router.routeMatch "/abc" |}.
Definition mountRoute : Router.Route :=
  {| Router.method := None; Router.path := "";
     Router.handler := Router.Terminal 3;
     Router.match_ := Router.subAppMatch "" |}.
Definition table : Router.RouterObj :=
  {| Router.basePath := "";
     Router.routes := [rootRoute; abcRoute; mountRoute] |}.

(** [app.get('/:name', h1); app.use(h2)] *)
Definition paramThenMount : option Router.Heap :=
  let '(app, σ) := Router.Router [] in
  σ ← Router.get app "/:name" (Router.Terminal 1) σ;
  Router.use 1 app "" (Router.Terminal 2) σ.

(** [app.use('/app', h)] *)
Definition plainMount : option Router.Heap :=
  let '(app, σ) := Router.Router [] in
  Router.use 1 app "/app" (Router.Terminal 3) σ.

(** [sub.get('/x', h); app.use('/sub', sub)], and two more routers to mount
    [app] in. *)
Definition appWithSub : option Router.Heap :=
  let '(app, σ) := Router.Router [] in
  let '(sub, σ) := Router.Router σ in
  let '(_, σ) := Router.Router σ in
  let '(_, σ) := Router.Router σ in
  σ ← Router.get sub "/x" (Router.Terminal 1) σ;
  Router.use 5 app "/sub" (Router.Mountable sub) σ.

(** [root1.use('/api', app)], then [root2.use('/api', app)]: each call sets
    the base path of [app] to ['/api']. *)
Definition mountedOnce : option Router.Heap :=
  appWithSub ≫= Router.use 5 2 "/api" (Router.Mountable 0).
Definition mountedTwice : option Router.Heap :=
  mountedOnce ≫= Router.use 5 3 "/api" (Router.Mountable 0).

(** Three routers, as in the test 'should allow nesting deep routers':
    [c.get('/:x', h); b.use('/b', c); a.use('/a', b)]. *)
Definition nested3 : option Router.Heap :=
  let '(a, σ) := Router.Router [] in
  let '(b, σ) := Router.Router σ in
  let '(c, σ) := Router.Router σ in
  σ ← Router.get c "/:x" (Router.Terminal 7) σ;
  σ ← Router.use 5 b "/b" (Router.Mountable c) σ;
  Router.use 5 a "/a" (Router.Mountable b) σ.

(** Four routers, mounted the same way, innermost first:
    [d.get('/:x', h); c.use('/c', d); b.use('/b', c); a.use('/a', b)]. *)
Definition nested4 : option Router.Heap :=
  let '(a, σ) := Router.Router [] in
  let '(b, σ) := Router.Router σ in
  let '(c, σ) := Router.Router σ in
  let '(d, σ) := Router.Router σ in
  σ ← Router.get d "/:x" (Router.Terminal 7) σ;
  σ ← Router.use 5 c "/c" (Router.Mountable d) σ;
  σ ← Router.use 5 b "/b" (Router.Mountable c) σ;
  Router.use 5 a "/a" (Router.Mountable b) σ.

(** The same four routers mounted outermost first. *)
Definition nested4_outer_first : option Router.Heap :=
  let '(a, σ) := Router.Router [] in
  let '(b, σ) := Router.Router σ in
  let '(c, σ) := Router.Router σ in
  let '(d, σ) := Router.Router σ in
  σ ← Router.use 5 a "/a" (Router.Mountable b) σ;
  σ ← Router.use 5 b "/b" (Router.Mountable c) σ;
  σ ← Router.use 5 c "/c" (Router.Mountable d) σ;
  Router.get d "/:x" (Router.Terminal 7) σ.

Definition run (σ : option Router.Heap) (root : nat) (req : Request)
  : option Router.Dispatched :=
  (fun h => Router.dispatch lib 10 h root req emptyCache) <$> σ.

(** More inputs for closed examples: the handler of the test 'ends
    requests with status code when errors occur', a response on which the
    handler has set headers, a router without routes, and the heap of a
    construction that returns. *)
Definition throws400 (req : unit) (res : JRes)
  : Outcome JRaw ErrorObj * JRes :=
  (Threw (createError 400 "400 Error"), res).

Definition htmlRes : JRes :=
  {| Dispatcher.res_statusCode := 200;
     Dispatcher.res_headers :=
       {[ "content-type" := Dispatcher.HText "text/html";
          "x-powered-by" := Dispatcher.HText "base" ]};
     Dispatcher.res_wire := Dispatcher.Open |}.

Definition emptyRouter : Router.RouterObj :=
  {| Router.basePath := ""; Router.routes := [] |}.

Definition heapOf (σ : option Router.Heap) : Router.Heap := default [] σ.

Definition otherCache : ReqCache :=
  {| urlParams := {[ 2%nat := {[ "id" := PStr "9" ]} ]};
     basePaths := {[ 2%nat := "/other" ]} |}.


End Model.

(** * Properties *)

(** ** The matcher of path-match.ts *)





(** A segment that decodes is handed over decoded. *)
Example PathMatch_decodes :
  PathMatch PathToRegexp.pathToRegexp routeOptions "/user/:id" "/user/a%20b/"
  = Ok (Some {[ "id" := PStr "a b" ]}).
Proof. vm_compute. reflexivity. Qed.

(** ** Getters *)

Section GetterFacts.
Context {Args W : Type}.
Variable handler :
  ReqId -> Args -> Getter.World W -> Outcome Value Value * Getter.World W.

Local Abbreviation memo := (Getter.memo handler).
Local Abbreviation run := (Getter.run handler).

Lemma memo_cached (st : Getter.State W) (req : ReqId) (args : Args) (v : Value) :
  Getter.reqWeakMap st !! req = Some v ->
  memo req args st = (Returned v, st).
Proof.
  intros Hc. unfold memo, Getter.memo. rewrite Hc. reflexivity.
Qed.

Lemma memo_returned_is_stored (st st1 : Getter.State W) (req : ReqId)
  (args : Args) (v : Value) :
  memo req args st = (Returned v, st1) ->
  Getter.reqWeakMap st1 !! req = Some v.
Proof.
  unfold memo, Getter.memo.
  destruct (Getter.reqWeakMap st !! req) as [v0|] eqn:Hc.
  - intros [= <- <-]. exact Hc.
  - destruct (handler req args (Getter.world st)) as [[r|e] w'];
      intros [= <- <-]; simpl.
    apply lookup_insert_eq.
Qed.









(** C10.  A call whose [computeFn] throws leaves no entry for the request,
    and the next call for it invokes [computeFn] again, on the world the
    first one left.  A call that returned a promise stored it: when the
    promise is later rejected, every call for the request still returns
    that same promise, and [computeFn] is not invoked. *)
Theorem getter_sync_throw_not_cached_async_failure_cached :
  (forall (st : Getter.State W) (req : ReqId) (args args2 : Args)
          (e : Value) (w' : Getter.World W),
     Getter.reqWeakMap st !! req = None ->
     handler req args (Getter.world st) = (Threw e, w') ->
     let st' := snd (memo req args st) in
     fst (memo req args st) = Threw e /\
     Getter.reqWeakMap st' !! req = None /\
     fst (memo req args2 st') = fst (handler req args2 w') /\
     Getter.invocations req (snd (memo req args2 st'))
     = (2 + Getter.invocations req st)%nat)
  /\
  (forall (st st1 : Getter.State W) (req : ReqId) (args args' : Args)
          (p : nat) (w : Getter.World W) (reason : Value),
     memo req args st = (Returned (VPromise p), st1) ->
     Getter.promises w !! p = Some (Rejected reason) ->
     memo req args' (Getter.elapse w st1)
     = (Returned (VPromise p), Getter.elapse w st1)).
Proof.
  split.
  - intros st req args args2 e w' Hnone Hthrow. simpl.
    unfold memo, Getter.memo. rewrite Hnone, Hthrow. simpl.
    rewrite Hnone.
    repeat split.
    + destruct (handler req args2 w') as [[r|e2] w2]; reflexivity.
    + unfold Getter.invocations.
      destruct (handler req args2 w') as [[r|e2] w2]; simpl;
        rewrite !filter_cons; simpl;
        destruct (decide (req = req)); try congruence; reflexivity.
  - intros st st1 req args args' p w reason Hm _.
    pose proof (memo_returned_is_stored _ _ _ _ _ Hm) as Hs.
    apply memo_cached. exact Hs.
Qed.
End GetterFacts.



Lemma getter_sync_throw_not_cached_async_failure_cached_witness :
  (let st' := snd (Getter.memo Model.throwing 7 tt (Getter.fresh Model.world0)) in
   fst (Getter.memo Model.throwing 7 tt (Getter.fresh Model.world0))
   = Threw (VText "Setter did not work")
   /\ Getter.reqWeakMap st' !! 7%nat = None
   /\ fst (Getter.memo Model.throwing 7 tt st')
      = fst (Model.throwing 7 tt Model.world0)
   /\ Getter.invocations 7 (snd (Getter.memo Model.throwing 7 tt st')) = 2%nat)
  /\
  (let st1 := snd (Getter.memo Model.startAsync 7 tt (Getter.fresh Model.world0)) in
   let w := {| Getter.promises := {[ 0%nat := Rejected (VText "too large") ]};
               Getter.others := 1%nat |} in
   Getter.memo Model.startAsync 7 tt (Getter.elapse w st1)
   = (Returned (VPromise 0), Getter.elapse w st1)).
Proof.
  split.
  - apply (proj1 (getter_sync_throw_not_cached_async_failure_cached
                    Model.throwing)
             (Getter.fresh Model.world0) 7%nat tt tt
             (VText "Setter did not work") Model.world0).
    + reflexivity.
    + reflexivity.
  - intros st1 w.
    apply (proj2 (getter_sync_throw_not_cached_async_failure_cached
                    Model.startAsync)
             (Getter.fresh Model.world0) st1 7%nat tt tt 0%nat w
             (VText "too large")).
    + reflexivity.
    + reflexivity.
Defined.

(** ** The dispatcher *)

Section DispatcherFacts.
Context {Num Obj Stream : Type}.
Variable JSON_stringify_number : Num -> string.
Variable JSON_stringify_object : Obj -> string.

Import Dispatcher.

Local Abbreviation Body := (@Dispatcher.Body Num Obj Stream).
Local Abbreviation Res := (@Dispatcher.ServerResponse Num Obj Stream).
Local Abbreviation send :=
  (Dispatcher.send JSON_stringify_number JSON_stringify_object).
Local Abbreviation toText :=
  (Dispatcher.toText JSON_stringify_number JSON_stringify_object).

Lemma getHeader_setHeader (name : string) (v : HeaderValue) (res : Res) :
  getHeader name (setHeader name v res) = Some v.
Proof. unfold getHeader, setHeader. simpl. apply lookup_insert_eq. Qed.

Lemma getHeader_setHeader_other (name name' : string) (v : HeaderValue)
  (res : Res) :
  lowercase name' <> lowercase name ->
  getHeader name (setHeader name' v res) = getHeader name res.
Proof.
  intros Hne. unfold getHeader, setHeader. simpl.
  apply lookup_insert_ne. exact Hne.
Qed.

Lemma getHeader_finish (name : string) (w : Wire Body Stream) (res : Res) :
  getHeader name (finish w res) = getHeader name res.
Proof. reflexivity. Qed.

Lemma getHeader_setStatus (name : string) (code : nat) (res : Res) :
  getHeader name (setStatus code res) = getHeader name res.
Proof. reflexivity. Qed.

Lemma unset_setStatus (name : string) (code : nat) (res : Res) :
  unset name (setStatus code res) = unset name res.
Proof. reflexivity. Qed.

(** What [defaultType] leaves as the Content-Type. *)
Lemma getHeader_defaultType (ty : string) (res : Res) :
  getHeader "Content-Type" (defaultType ty res)
  = if unset "Content-Type" res then Some (HText ty)
    else getHeader "Content-Type" res.
Proof.
  unfold defaultType. destruct (unset "Content-Type" res); [|reflexivity].
  apply getHeader_setHeader.
Qed.

Lemma length_type_differ : lowercase "Content-Length" <> lowercase "Content-Type".
Proof. discriminate. Qed.

(** The headers and the wire after a text [str] was sent with, possibly, a
    default type. *)
Lemma sent_text (res : Res) (len : nat) (w : Wire Body Stream) (ty : string) :
  let after := finish w (setHeader "Content-Length" (HNumber len)
                           (defaultType ty (setStatus 200 res))) in
  res_statusCode after = 200%nat
  /\ res_wire after = w
  /\ getHeader "Content-Length" after = Some (HNumber len)
  /\ getHeader "Content-Type" after
     = if unset "Content-Type" res then Some (HText ty)
       else getHeader "Content-Type" res.
Proof.
  simpl. repeat split.
  - unfold defaultType. destruct (unset _ _); reflexivity.
  - apply getHeader_setHeader.
  - rewrite getHeader_finish, getHeader_setHeader_other
      by exact length_type_differ.
    rewrite getHeader_defaultType, unset_setStatus. reflexivity.
Qed.

Section Handler.
Context {Req : Type}.
Variable handler : Req -> Res -> Outcome (@Raw Num Obj Stream) ErrorObj * Res.

Local Abbreviation base :=
  (Dispatcher.base JSON_stringify_number JSON_stringify_object handler).

(** C7.  When the handler returns a value that is neither a [Response]
    nor [undefined], the status is 200 and nothing is logged, and:
    [null] ends the response without a payload and leaves the headers
    as they were; a Buffer is sent with Content-Length its length and
    Content-Type application/octet-stream unless one was set; a number
    or an object is sent as its JSON text, with Content-Length the
    length of that text and Content-Type application/json;
    charset=utf-8 unless one was set; a string is sent as it is, with
    its length, and the Content-Type left alone; a stream is piped and
    gets no Content-Length. *)
Theorem base_classifies_returned_value
  (req : Req) (res res1 : Res) (console : list ErrorObj) (b : Body) :
  handler req res = (Returned (Plain b), res1) ->
  b <> BUndefined ->
  let after := fst (base req res console) in
  snd (base req res console) = console
  /\ res_statusCode after = 200%nat
  /\ match b with
     | BNull =>
         res_wire after = Ended None
         /\ res_headers after = res_headers res1
     | BBuffer bytes =>
         res_wire after = Ended (Some (BBuffer bytes))
         /\ getHeader "Content-Length" after
            = Some (HNumber (String.length bytes))
         /\ getHeader "Content-Type" after
            = if unset "Content-Type" res1
              then Some (HText "application/octet-stream")
              else getHeader "Content-Type" res1
     | BNumber n =>
         res_wire after = Ended (Some (BString (JSON_stringify_number n)))
         /\ getHeader "Content-Length" after
            = Some (HNumber (String.length (JSON_stringify_number n)))
         /\ getHeader "Content-Type" after
            = if unset "Content-Type" res1
              then Some (HText "application/json; charset=utf-8")
              else getHeader "Content-Type" res1
     | BObject o =>
         res_wire after = Ended (Some (BString (JSON_stringify_object o)))
         /\ getHeader "Content-Length" after
            = Some (HNumber (String.length (JSON_stringify_object o)))
         /\ getHeader "Content-Type" after
            = if unset "Content-Type" res1
              then Some (HText "application/json; charset=utf-8")
              else getHeader "Content-Type" res1
     | BString s =>
         res_wire after = Ended (Some (BString s))
         /\ getHeader "Content-Length" after
            = Some (HNumber (String.length s))
         /\ getHeader "Content-Type" after = getHeader "Content-Type" res1
     | BBoolean v =>
         getHeader "Content-Length" after
         = Some (HNumber (String.length (if v then "true" else "false")))
         /\ getHeader "Content-Type" after = getHeader "Content-Type" res1
     | BStream s =>
         res_wire after = Piped s
         /\ getHeader "Content-Length" after
            = getHeader "Content-Length" res1
     | BUndefined => True
     end.
Proof.
  intros Hh Hb. unfold Dispatcher.base. rewrite Hh.
  destruct b; try congruence; cbn [fst snd];
    (split; [reflexivity|]); unfold Dispatcher.send;
    cbn [reply body statusCode default].
  - (* null *) repeat split.
  - (* boolean *)
    split; [reflexivity|]. split.
    + rewrite getHeader_finish, getHeader_setHeader.
      destruct b; reflexivity.
    + rewrite getHeader_finish, getHeader_setHeader_other
        by exact length_type_differ. reflexivity.
  - (* number *)
    destruct (sent_text res1 (String.length (JSON_stringify_number n))
                (Ended (Some (BString (JSON_stringify_number n))))
                "application/json; charset=utf-8")
      as (H1 & H2 & H3 & H4).
    repeat split; assumption.
  - (* string *)
    split; [reflexivity|]. split; [reflexivity|]. split.
    + apply getHeader_setHeader.
    + rewrite getHeader_finish, getHeader_setHeader_other
        by exact length_type_differ. reflexivity.
  - (* Buffer *)
    destruct (sent_text res1 (String.length bytes)
                (Ended (Some (BBuffer bytes)))
                "application/octet-stream")
      as (H1 & H2 & H3 & H4).
    repeat split; assumption.
  - (* stream *)
    split.
    + unfold defaultType. destruct (unset _ _); reflexivity.
    + split; [reflexivity|].
      rewrite getHeader_finish. unfold defaultType.
      destruct (unset "Content-Type" (setStatus 200 res1)); [|reflexivity].
      rewrite getHeader_setHeader_other by discriminate. reflexivity.
  - (* object *)
    destruct (sent_text res1 (String.length (JSON_stringify_object o))
                (Ended (Some (BString (JSON_stringify_object o))))
                "application/json; charset=utf-8")
      as (H1 & H2 & H3 & H4).
    repeat split; assumption.
Qed.

(** The status of a thrown error is never 0, so [base] never takes the
    branch that answers "Internal Server Error". *)
Lemma errorStatus_positive (e : ErrorObj) : errorStatus e <> 0%nat.
Proof.
  unfold errorStatus, truthy.
  destruct (Thrown.statusCode e) as [[|k]|];
    destruct (Thrown.status e) as [[|k']|]; discriminate.
Qed.

(** What [base] does when the handler throws an error with neither
    [statusCode] nor [status]: the response has status 500 and the error is
    logged, but the body is the message of the error itself, with the
    length of that message as Content-Length. *)
Lemma base_unstatused_error_sends_its_message
  (req : Req) (res res1 : Res) (console : list ErrorObj) (e : ErrorObj) :
  handler req res = (Threw e, res1) ->
  Thrown.statusCode e = None ->
  Thrown.status e = None ->
  let after := fst (base req res console) in
  snd (base req res console) = e :: console
  /\ res_statusCode after = 500%nat
  /\ res_wire after = Ended (Some (BString (Thrown.message e)))
  /\ getHeader "Content-Length" after
     = Some (HNumber (String.length (Thrown.message e))).
Proof.
  intros Hh Hsc Hs. unfold Dispatcher.base. rewrite Hh.
  unfold errorStatus. rewrite Hsc, Hs. cbn [truthy fst snd].
  unfold Dispatcher.send. cbn [reply body statusCode default].
  repeat split. rewrite getHeader_finish. apply getHeader_setHeader.
Qed.
End Handler.

(** [base] never reads the headers of a [Response]. *)
Lemma send_ignores_response_headers (b : Body) (code : nat)
  (h1 h2 : gmap string HeaderValue) (res : Res) :
  send (Structured {| body := b; statusCode := code; headers := h1 |}) res
  = send (Structured {| body := b; statusCode := code; headers := h2 |}) res.
Proof. reflexivity. Qed.
End DispatcherFacts.

Lemma base_unstatused_error_sends_its_message_witness :
  let after := fst (Model.jbase Model.throwsPlain tt Model.res0 []) in
  snd (Model.jbase Model.throwsPlain tt Model.res0 [])
  = [plainError "Test Error"]
  /\ Dispatcher.res_statusCode after = 500%nat
  /\ Dispatcher.res_wire after
     = Dispatcher.Ended (Some (Dispatcher.BString "Test Error"))
  /\ Dispatcher.getHeader "Content-Length" after
     = Some (Dispatcher.HNumber 10).
Proof.
  apply (base_unstatused_error_sends_its_message
           Model.showNat Model.showArray Model.throwsPlain
           tt Model.res0 Model.res0 [] (plainError "Test Error"));
    reflexivity.
Defined.

(** C1 fails on the code.  The handler of the test 'ends requests when
    errors occur' throws [new Error('Test Error')], which has neither
    [statusCode] nor [status].  The error is logged and the status is 500,
    as claimed, but the body sent is "Test Error", the message of the
    error, and not "Internal Server Error". *)
Theorem base_unstatused_error_leaks_message :
  Thrown.statusCode (plainError "Test Error") = None
  /\ Thrown.status (plainError "Test Error") = None
  /\ snd (Model.jbase Model.throwsPlain tt Model.res0 [])
     = [plainError "Test Error"]
  /\ Dispatcher.res_statusCode
       (fst (Model.jbase Model.throwsPlain tt Model.res0 [])) = 500%nat
  /\ Dispatcher.res_wire (fst (Model.jbase Model.throwsPlain tt Model.res0 []))
     = Dispatcher.Ended (Some (Dispatcher.BString "Test Error"))
  /\ Dispatcher.res_wire (fst (Model.jbase Model.throwsPlain tt Model.res0 []))
     <> Dispatcher.Ended (Some (Dispatcher.BString "Internal Server Error")).
Proof.
  repeat split. vm_compute. discriminate.
Qed.

Lemma base_classifies_returned_value_witness :
  let after := fst (Model.jbase Model.returns1234 tt Model.res0 []) in
  snd (Model.jbase Model.returns1234 tt Model.res0 []) = []
  /\ Dispatcher.res_statusCode after = 200%nat
  /\ Dispatcher.res_wire after
     = Dispatcher.Ended (Some (Dispatcher.BString "1234"))
  /\ Dispatcher.getHeader "Content-Length" after = Some (Dispatcher.HNumber 4)
  /\ Dispatcher.getHeader "Content-Type" after
     = Some (Dispatcher.HText "application/json; charset=utf-8").
Proof.
  apply (base_classifies_returned_value
           Model.showNat Model.showArray Model.returns1234
           tt Model.res0 Model.res0 [] (Dispatcher.BNumber 1234)).
  - reflexivity.
  - discriminate.
Defined.

(** C9 fails on the code.  A handler returns [reply(1234, 200,
    {'Content-Type': 'text/plain'})]: the response goes out as
    application/json; charset=utf-8.  Another returns [reply('made', 201,
    {Location: '/items/1'})]: no Location header is sent. *)
Theorem reply_headers_are_dropped :
  Dispatcher.getHeader "Content-Type"
    (fst (Model.jbase Model.repliesTyped tt Model.res0 []))
  = Some (Dispatcher.HText "application/json; charset=utf-8")
  /\ Dispatcher.getHeader "Location"
       (fst (Model.jbase Model.repliesCustom tt Model.res0 [])) = None
  /\ Dispatcher.res_statusCode
       (fst (Model.jbase Model.repliesCustom tt Model.res0 [])) = 201%nat.
Proof.
  repeat split; vm_compute; reflexivity.
Qed.

(** ** The router *)

Section RouterFacts.
Variable L : Library.
Import Router.

Local Abbreviation pathOf := (fun req : Request => url_pathname L (req_url req)).

Lemma method_passes (r : Route) (req : Request) :
  method r = None \/ method r = Some (req_method req) ->
  method_differs r req = false.
Proof.
  unfold method_differs. intros [-> | ->]; [reflexivity|].
  rewrite String.eqb_refl. apply andb_false_r.
Qed.

(** Routes that are passed over do not change the outcome of the scan. *)
Lemma scan_skips (earlier rest : list Route) (req : Request) :
  Forall (fun r' => method_differs r' req = true
                    \/ run_match L (match_ r') (pathOf req) = Ok None)
         earlier ->
  scan L (earlier ++ rest) req = scan L rest req.
Proof.
  induction 1 as [|r' earlier Hr' _ IH]; [reflexivity|].
  simpl. destruct Hr' as [-> | Hno]; [exact IH|].
  destruct (method_differs r' req); [exact IH|].
  rewrite Hno. exact IH.
Qed.

(** C3, as the code has it.  Take a router and a request, and a route [r]
    of its table whose method is none or the method of the request, such
    that every route before [r] has another method or answers no-match
    on the pathname of the request.  If the matcher of [r] answers
    parameters, they and the base path of the router are stored for the
    request, and the router does what the handler of [r] does with that
    cache, that and nothing else: a plain handler is invoked, a mounted
    router dispatches in turn.  If the matcher of [r] throws, so does the
    router, and no handler is invoked, whatever the routes after [r]. *)
Theorem dispatch_first_match
  (fuel : nat) (σ : Heap) (self : nat) (R : RouterObj) (req : Request)
  (c : ReqCache) (earlier later : list Route) (r : Route) :
  σ !! self = Some R ->
  routes R = earlier ++ r :: later ->
  Forall (fun r' => method_differs r' req = true
                    \/ run_match L (match_ r') (pathOf req) = Ok None)
         earlier ->
  method r = None \/ method r = Some (req_method req) ->
  (forall params : Params,
     run_match L (match_ r) (pathOf req) = Ok (Some params) ->
     let c' := store R req params c in
     urlParams c' !! reqId req = Some params
     /\ basePaths c' !! reqId req = Some (basePath R)
     /\ dispatch L (S fuel) σ self req c
        = match handler r with
          | Terminal fn => Invoked fn c'
          | Mountable sub => dispatch L fuel σ sub req c'
          end)
  /\
  (forall e : ErrorObj,
     run_match L (match_ r) (pathOf req) = Throw e ->
     dispatch L (S fuel) σ self req c = Rejects e c).
Proof.
  intros Hself Hroutes Hearlier Hmethod.
  assert (Hscan : scan L (routes R) req
                  = match run_match L (match_ r) (pathOf req) with
                    | Throw e => Raised e
                    | Ok None => scan L later req
                    | Ok (Some params) => Selected r params
                    end).
  { rewrite Hroutes, scan_skips by exact Hearlier.
    simpl. rewrite (method_passes r req Hmethod). reflexivity. }
  split.
  - intros params Hm c'.
    split; [apply lookup_insert_eq|]. split; [apply lookup_insert_eq|].
    cbn [dispatch]. rewrite Hself, Hscan, Hm. reflexivity.
  - intros e Hm. cbn [dispatch]. rewrite Hself, Hscan, Hm. reflexivity.
Qed.

(** C8, as the code has it.  [use(path, handler)] with a plain handler
    appends to the router one route: no method, the path as given, and
    the matcher made by [subAppMatch], the one with [end: false] that
    accepts a prefix of the pathname, for the base path followed by the
    path.  Nothing else changes. *)
Theorem use_plain_handler_registers_prefix_matcher
  (fuel : nat) (σ : Heap) (self : nat) (R : RouterObj) (p : string)
  (fn : nat) :
  σ !! self = Some R ->
  use fuel self p (Terminal fn) σ
  = Some (<[self := {| basePath := basePath R;
                       routes := routes R ++
                         [{| method := None;
                             path := p;
                             handler := Terminal fn;
                             match_ := {| options := {| sensitive := false;
                                                        strict := true;
                                                        end_ := false |};
                                          pattern := basePath R +:+ p |}
                          |}] |}]> σ).
Proof.
  intros Hself. unfold use, push.
  rewrite Hself. simpl. rewrite Hself. reflexivity.
Qed.
End RouterFacts.

Example firstQualified_table : Model.firstQualified = Some [Model.table].
Proof. reflexivity. Qed.

Lemma dispatch_first_match_witness :
  let req := Model.GET 1 "/abc?sort=asc" in
  let c' := Router.store Model.table req ∅ Model.emptyCache in
  urlParams c' !! 1%nat = Some ∅
  /\ basePaths c' !! 1%nat = Some ""
  /\ Router.dispatch Model.lib 1 [Model.table] 0 req Model.emptyCache
     = Router.Invoked 2 c'.
Proof.
  intros req c'.
  assert (Hearlier :
            Forall (fun r' => Router.method_differs r' req = true
                              \/ Router.run_match Model.lib (Router.match_ r')
                                   (url_pathname Model.lib (req_url req))
                                 = Ok None)
                   [Model.rootRoute]).
  { constructor; [right; vm_compute; reflexivity | constructor]. }
  apply (proj1 (dispatch_first_match Model.lib 0 [Model.table] 0%nat
                  Model.table req Model.emptyCache
                  [Model.rootRoute] [Model.mountRoute] Model.abcRoute
                  eq_refl eq_refl Hearlier (or_intror eq_refl))
           ∅).
  vm_compute. reflexivity.
Defined.

(** On an origin-form target the pathname stops at the query string. *)
Example pathname_drops_query :
  Model.pathname "/abc?sort=asc" = "/abc".
Proof. reflexivity. Qed.

(** C3, as stated, fails.  After [app.get('/:name', h1); app.use(h2)] the
    request [GET /%zz] passes the method filter of both routes; the matcher
    of the first throws, so the earliest route whose matcher accepts the
    path is the second, with no parameters.  The router invokes neither
    handler: it throws the error of status 400. *)
Lemma dispatch_throws_before_accepting_route :
  let req := Model.GET 1 "/%zz" in
  let bad := createError 400
               ("failed to decode param " +:+ dquote +:+ "%zz" +:+ dquote) in
  let first := {| Router.method := Some "GET"; Router.path := "/:name";
                  Router.handler := Router.Terminal 1;
                  Router.match_ := Router.routeMatch "/:name" |} in
  let second := {| Router.method := None; Router.path := "";
                   Router.handler := Router.Terminal 2;
                   Router.match_ := Router.subAppMatch "" |} in
  let σ := [ {| Router.basePath := ""; Router.routes := [first; second] |} ] in
  Model.paramThenMount = Some σ
  /\ Router.method_differs first req = false
  /\ Router.run_match Model.lib (Router.match_ first) "/%zz" = Throw bad
  /\ Router.method_differs second req = false
  /\ Router.run_match Model.lib (Router.match_ second) "/%zz" = Ok (Some ∅)
  /\ Router.dispatch Model.lib 1 σ 0 req Model.emptyCache
     = Router.Rejects bad Model.emptyCache.
Proof.
  repeat split; vm_compute; reflexivity.
Qed.

Lemma use_plain_handler_registers_prefix_matcher_witness :
  Router.use 1 0 "/app" (Router.Terminal 3)
    [ {| Router.basePath := ""; Router.routes := [] |} ]
  = Some [ {| Router.basePath := "";
              Router.routes :=
                [ {| Router.method := None; Router.path := "/app";
                     Router.handler := Router.Terminal 3;
                     Router.match_ :=
                       {| Router.options := {| sensitive := false;
                                               strict := true;
                                               end_ := false |};
                          Router.pattern := "/app" |} |} ] |} ].
Proof.
  apply (use_plain_handler_registers_prefix_matcher 1
           [ {| Router.basePath := ""; Router.routes := [] |} ] 0%nat
           {| Router.basePath := ""; Router.routes := [] |} "/app" 3%nat).
  reflexivity.
Defined.

(** C8, as stated, fails.  After [app.use('/app', h)], with [h] a plain
    function, the route has no method, but its matcher is not anchored:
    [GET /app/extra/deep] is dispatched to [h], although the anchored matcher
    for ['/app'] rejects that pathname. *)
Lemma use_plain_handler_matcher_is_not_anchored :
  let req := Model.GET 1 "/app/extra/deep" in
  let mounted := {| Router.method := None; Router.path := "/app";
                    Router.handler := Router.Terminal 3;
                    Router.match_ := Router.subAppMatch "/app" |} in
  let σ := [ {| Router.basePath := ""; Router.routes := [mounted] |} ] in
  Model.plainMount = Some σ
  /\ Router.match_ mounted <> Router.routeMatch "/app"
  /\ Router.run_match Model.lib (Router.routeMatch "/app") "/app/extra/deep"
     = Ok None
  /\ Router.run_match Model.lib (Router.match_ mounted) "/app/extra/deep"
     = Ok (Some ∅)
  /\ Router.dispatch Model.lib 1 σ 0 req Model.emptyCache
     = Router.Invoked 3
         {| urlParams := {[ 1%nat := ∅ ]}; basePaths := {[ 1%nat := "" ]} |}.
Proof.
  repeat split; try (vm_compute; reflexivity). discriminate.
Qed.

(** C2 fails on the code.  [sub.get('/x', h); app.use('/sub', sub)], then
    the base path of [app] is set to ['/api'] twice, by mounting [app] at
    ['/api'] in two routers.  After the first call the mount of [sub]
    matches under ['/api/sub'] and [GET /api/sub/x] reaches [h].  The call
    has stored the base path in place of the declared path of the mount, so
    the second call derives ['/api/api']: the matchers and the base path of
    [sub] change, and [GET /api/sub/x] is not found. *)
Theorem setBasePath_twice_differs :
  let app1 := {| Router.basePath := "/api";
                 Router.routes :=
                   [ {| Router.method := None; Router.path := "/api";
                        Router.handler := Router.Mountable 1;
                        Router.match_ := Router.subAppMatch "/api/sub" |} ] |} in
  let sub1 := {| Router.basePath := "/api/sub";
                 Router.routes :=
                   [ {| Router.method := Some "GET"; Router.path := "/x";
                        Router.handler := Router.Terminal 1;
                        Router.match_ := Router.routeMatch "/api/sub/x" |} ] |} in
  let app2 := {| Router.basePath := "/api";
                 Router.routes :=
                   [ {| Router.method := None; Router.path := "/api";
                        Router.handler := Router.Mountable 1;
                        Router.match_ := Router.subAppMatch "/api/api" |} ] |} in
  let sub2 := {| Router.basePath := "/api/api";
                 Router.routes :=
                   [ {| Router.method := Some "GET"; Router.path := "/x";
                        Router.handler := Router.Terminal 1;
                        Router.match_ := Router.routeMatch "/api/api/x" |} ] |} in
  Model.mountedOnce ≫= (.!! 0%nat) = Some app1
  /\ Model.mountedOnce ≫= (.!! 1%nat) = Some sub1
  /\ Model.mountedTwice ≫= (.!! 0%nat) = Some app2
  /\ Model.mountedTwice ≫= (.!! 1%nat) = Some sub2
  /\ (Model.mountedOnce ≫= Router.setBasePath 5 0 "/api") ≫= (.!! 0%nat)
     = Some app2
  /\ (Model.mountedOnce ≫= Router.setBasePath 5 0 "/api") ≫= (.!! 1%nat)
     = Some sub2
  /\ Model.run Model.mountedOnce 2 (Model.GET 1 "/api/sub/x")
     = Some (Router.Invoked 1
               {| urlParams := {[ 1%nat := ∅ ]};
                  basePaths := {[ 1%nat := "/api/sub" ]} |})
  /\ Model.run Model.mountedTwice 2 (Model.GET 1 "/api/sub/x")
     = Some (Router.NotFound
               {| urlParams := {[ 1%nat := ∅ ]};
                  basePaths := {[ 1%nat := "" ]} |}).
Proof.
  intros app1 sub1 app2 sub2. repeat split; vm_compute; reflexivity.
Qed.

(** C4 fails on the code.  Four routers mounted innermost first,
    [d.get('/:x', h); c.use('/c', d); b.use('/b', c); a.use('/a', b)]:
    the route of the deepest router is compiled for ['/a/b/b/:x'], so
    [GET /a/b/c/foo] is not found, and [h] is reached at [/a/b/b/foo]
    instead.  With three routers, or with the four mounted outermost first,
    the route is reached where the claim says. *)
Theorem deep_nesting_loses_route :
  (exists c, Model.run Model.nested4 0 (Model.GET 1 "/a/b/c/foo")
             = Some (Router.NotFound c))
  /\ Model.nested4 ≫= (.!! 3%nat)
     = Some {| Router.basePath := "/a/b/b";
               Router.routes :=
                 [ {| Router.method := Some "GET"; Router.path := "/:x";
                      Router.handler := Router.Terminal 7;
                      Router.match_ := Router.routeMatch "/a/b/b/:x" |} ] |}
  /\ Model.run Model.nested4 0 (Model.GET 1 "/a/b/b/foo")
     = Some (Router.Invoked 7
               {| urlParams := {[ 1%nat := {[ "x" := PStr "foo" ]} ]};
                  basePaths := {[ 1%nat := "/a/b/b" ]} |})
  /\ Model.run Model.nested3 0 (Model.GET 1 "/a/b/foo")
     = Some (Router.Invoked 7
               {| urlParams := {[ 1%nat := {[ "x" := PStr "foo" ]} ]};
                  basePaths := {[ 1%nat := "/a/b" ]} |})
  /\ Model.run Model.nested4_outer_first 0 (Model.GET 1 "/a/b/c/foo")
     = Some (Router.Invoked 7
               {| urlParams := {[ 1%nat := {[ "x" := PStr "foo" ]} ]};
                  basePaths := {[ 1%nat := "/a/b/c" ]} |}).
Proof.
  split; [eexists; vm_compute; reflexivity|].
  repeat split; vm_compute; reflexivity.
Qed.

(** ** [setBasePath] on a router that mounts no router

    The loop then only takes its second branch, which leaves the declared
    path of a route alone: every matcher is derived again from the new base
    path and the declared path, and a second call changes nothing. *)

Section SetBasePathPlain.
Import Router.
Variables (rec : nat -> string -> Heap -> option Heap) (self : nat)
          (bp : string).

Local Abbreviation step :=
  (fun (acc : option Heap) (i : nat) =>
     acc ≫= setBasePath_route rec self i).

Lemma setBasePath_loop_plain (σ : Heap) (todo : list Route) :
  self < length σ ->
  Forall plain todo ->
  forall done : list Route,
    foldl step
      (Some (<[self := {| basePath := bp; routes := done ++ todo |}]> σ))
      (seq (length done) (length todo))
    = Some (<[self := {| basePath := bp;
                         routes := done ++ (rederive bp <$> todo) |}]> σ).
Proof.
  intros Hself Hplain. induction Hplain as [|r todo [fn Hr] _ IH];
    intros done; [reflexivity|].
  cbn [length seq foldl fmap list_fmap].
  replace (Some (<[self := {| basePath := bp; routes := done ++ r :: todo |}]> σ)
           ≫= setBasePath_route rec self (length done))
    with (Some (<[self := {| basePath := bp;
                             routes := (done ++ [rederive bp r]) ++ todo |}]> σ)).
  - replace (S (length done)) with (length (done ++ [rederive bp r]))
      by (rewrite length_app; simpl; lia).
    rewrite IH, <- app_assoc. reflexivity.
  - simpl. unfold setBasePath_route.
    rewrite list_lookup_insert_eq by exact Hself. simpl.
    rewrite list_lookup_middle by reflexivity. simpl.
    rewrite Hr. unfold setRoute.
    rewrite list_lookup_insert_eq by exact Hself. simpl.
    rewrite list_insert_insert_eq.
    replace (length done) with (length done + 0)%nat at 1 by lia.
    rewrite insert_app_r, <- app_assoc. simpl.
    unfold rederive. rewrite Hr. reflexivity.
Qed.
End SetBasePathPlain.

Lemma setBasePath_plain (fuel self : nat) (bp : string) (σ : Router.Heap)
  (R : Router.RouterObj) :
  σ !! self = Some R ->
  Forall Router.plain (Router.routes R) ->
  Router.setBasePath (S fuel) self bp σ
  = Some (<[self := {| Router.basePath := bp;
                       Router.routes := Router.rederive bp <$> Router.routes R |}]> σ).
Proof.
  intros Hself Hplain. cbn [Router.setBasePath]. rewrite Hself. simpl.
  apply (setBasePath_loop_plain (Router.setBasePath fuel) self bp σ
           (Router.routes R) (lookup_lt_Some _ _ _ Hself) Hplain []).
Qed.

Lemma rederive_plain (bp : string) (r : Router.Route) :
  Router.plain r -> Router.plain (Router.rederive bp r).
Proof. intros [fn Hfn]. exists fn. exact Hfn. Qed.

(** X21.  On a router all of whose handlers are plain functions,
    [setBasePath] returns and is idempotent: a second call with the same
    base path leaves the heap as the first one made it. *)
Lemma setBasePath_plain_idempotent (fuel self : nat) (bp : string)
  (σ : Router.Heap) (R : Router.RouterObj) :
  σ !! self = Some R ->
  Forall Router.plain (Router.routes R) ->
  exists σ1,
    Router.setBasePath (S fuel) self bp σ = Some σ1
    /\ Router.setBasePath (S fuel) self bp σ1 = Some σ1.
Proof.
  intros Hself Hplain. eexists. split.
  - apply setBasePath_plain; eassumption.
  - pose proof (lookup_lt_Some _ _ _ Hself) as Hlt.
    set (R1 := {| Router.basePath := bp;
                  Router.routes := Router.rederive bp <$> Router.routes R |}).
    assert (H1 : <[self := R1]> σ !! self = Some R1)
      by (apply list_lookup_insert_eq; exact Hlt).
    assert (Hp1 : Forall Router.plain (Router.routes R1)).
    { simpl. apply Forall_fmap. eapply Forall_impl; [exact Hplain|].
      intros r Hr. apply rederive_plain, Hr. }
    rewrite (setBasePath_plain fuel self bp _ R1 H1 Hp1).
    rewrite list_insert_insert_eq. subst R1. simpl. do 3 f_equal.
    rewrite <- list_fmap_compose. apply list_fmap_ext.
    intros i r _. reflexivity.
Qed.

(** * Further properties of the code *)

(** ** The route table *)

Section RouteTable.
Variable L : Library.
Import Router.

Local Abbreviation pathOf := (fun req : Request => url_pathname L (req_url req)).

(** The scan of a table followed by more routes: the first part decides,
    unless it selects nothing. *)
Lemma scan_app (rs rs' : list Route) (req : Request) :
  scan L (rs ++ rs') req
  = match scan L rs req with
    | NoRoute => scan L rs' req
    | found => found
    end.
Proof.
  induction rs as [|r rs IH]; simpl; [destruct (scan L rs' req); reflexivity|].
  destruct (method_differs r req); [exact IH|].
  destruct (run_match L (match_ r) (pathOf req)) as [[params|]|e];
    [reflexivity | exact IH | reflexivity].
Qed.

Lemma scan_selected (rs : list Route) (req : Request) (r : Route)
  (params : Params) :
  scan L rs req = Selected r params ->
  r ∈ rs
  /\ method_differs r req = false
  /\ run_match L (match_ r) (pathOf req) = Ok (Some params).
Proof.
  induction rs as [|r0 rs IH]; simpl; [discriminate|].
  destruct (method_differs r0 req) eqn:Hm.
  - intros H. destruct (IH H) as (Hin & H1 & H2).
    repeat split; [right; exact Hin | exact H1 | exact H2].
  - destruct (run_match L (match_ r0) (pathOf req)) as [[ps|]|e] eqn:Hr.
    + intros [= <- <-]. repeat split; [left | exact Hm | exact Hr].
    + intros H. destruct (IH H) as (Hin & H1 & H2).
      repeat split; [right; exact Hin | exact H1 | exact H2].
    + discriminate.
Qed.

(** X1.  When the scan selects a route, the table splits around it: every
    route before it has another method or answers no-match on the pathname
    of the request, its own method does not differ from the method of the
    request, and the parameters are what its own matcher answered. *)
Theorem scan_selected_sound (rs : list Route) (req : Request) (r : Route)
  (params : Params) :
  scan L rs req = Selected r params ->
  exists earlier later,
    rs = earlier ++ r :: later
    /\ Forall (fun r' => method_differs r' req = true
                         \/ run_match L (match_ r') (pathOf req) = Ok None)
              earlier
    /\ method_differs r req = false
    /\ run_match L (match_ r) (pathOf req) = Ok (Some params).
Proof.
  induction rs as [|r0 rs IH]; simpl; [discriminate|].
  destruct (method_differs r0 req) eqn:Hm.
  - intros H. destruct (IH H) as (earlier & later & -> & Hskip & H1 & H2).
    exists (r0 :: earlier), later.
    repeat split; [|exact H1 | exact H2].
    constructor; [left; exact Hm | exact Hskip].
  - destruct (run_match L (match_ r0) (pathOf req)) as [[ps|]|e] eqn:Hr.
    + intros [= <- <-]. exists [], rs.
      repeat split; [constructor | exact Hm | exact Hr].
    + intros H. destruct (IH H) as (earlier & later & -> & Hskip & H1 & H2).
      exists (r0 :: earlier), later.
      repeat split; [|exact H1 | exact H2].
      constructor; [right; exact Hr | exact Hskip].
    + discriminate.
Qed.


(** X3.  Route selection reads of a request its method and the pathname of
    its url, nothing else: two requests that agree on both are scanned
    alike, whatever their query strings. *)
Theorem scan_reads_method_and_pathname (rs : list Route) (req req' : Request) :
  req_method req = req_method req' ->
  pathOf req = pathOf req' ->
  scan L rs req = scan L rs req'.
Proof.
  intros Hm Hp. induction rs as [|r rs IH]; simpl; [reflexivity|].
  unfold method_differs. rewrite Hm, Hp, IH. reflexivity.
Qed.

(** X4.  Registering one more route does not change what happens to a
    request that the table already selected a route for, or threw on: a
    route only ever takes requests that no earlier route took. *)
Theorem addRoute_keeps_earlier_matches (σ σ' : Heap) (self : nat)
  (R : RouterObj) (m p : string) (h : HandlerRef) (req : Request) :
  σ !! self = Some R ->
  addRoute self m p h σ = Some σ' ->
  exists R',
    σ' !! self = Some R'
    /\ basePath R' = basePath R
    /\ routes R' = routes R ++ [{| method := Some m; path := p; handler := h;
                                   match_ := routeMatch (basePath R +:+ p) |}]
    /\ (scan L (routes R) req <> NoRoute ->
        scan L (routes R') req = scan L (routes R) req).
Proof.
  intros Hself. unfold addRoute, push. rewrite Hself. simpl.
  rewrite ?Hself. simpl. intros [= <-].
  eexists. split.
  - apply list_lookup_insert_eq. eapply lookup_lt_Some. exact Hself.
  - simpl. repeat split. intros Hfound. rewrite scan_app.
    destruct (scan L (routes R) req); congruence.
Qed.

(** What a request leaves the routers with depends on the cache it came
    with only at the entry of the request. *)
Lemma store_other (R : RouterObj) (req : Request) (params : Params)
  (c : ReqCache) (id : ReqId) :
  id <> reqId req ->
  urlParams (store R req params c) !! id = urlParams c !! id
  /\ basePaths (store R req params c) !! id = basePaths c !! id.
Proof.
  intros Hne. simpl. split; apply lookup_insert_ne; congruence.
Qed.

(** X5.  Dispatching a request, through any depth of mounted routers,
    never touches what is cached for another request. *)
Theorem dispatch_isolates_requests (fuel : nat) (σ : Heap) :
  forall (self : nat) (req : Request) (c c' : ReqCache) (id : ReqId),
    cache_of (dispatch L fuel σ self req c) = Some c' ->
    id <> reqId req ->
    urlParams c' !! id = urlParams c !! id
    /\ basePaths c' !! id = basePaths c !! id.
Proof.
  induction fuel as [|fuel IH]; intros self req c c' id; simpl;
    [discriminate|].
  destruct (σ !! self) as [R|]; [|discriminate].
  destruct (scan L (routes R) req) as [r params| |e]; simpl.
  - destruct (handler r) as [fn|sub]; simpl.
    + intros [= <-] Hne. apply store_other, Hne.
    + intros Hc Hne.
      destruct (IH sub req (store R req params c) c' id Hc Hne) as [H1 H2].
      destruct (store_other R req params c id Hne) as [H3 H4].
      split; congruence.
  - intros [= <-] _. split; reflexivity.
  - intros [= <-] _. split; reflexivity.
Qed.

(** X6.  When a plain handler is invoked, at whatever depth, it is the
    handler of a route of some router of the heap; the matcher of that
    route accepted the pathname, with the parameters now cached for the
    request, and the base path cached is the one of that router.  So the
    default computations of [getUrlParams] and [getBasePath] are not
    needed by a handler reached through a router. *)
Theorem dispatch_invoked_sound (fuel : nat) (σ : Heap) :
  forall (self : nat) (req : Request) (c c' : ReqCache) (fn : nat),
    dispatch L fuel σ self req c = Invoked fn c' ->
    exists (owner : nat) (R : RouterObj) (r : Route) (params : Params),
      σ !! owner = Some R
      /\ r ∈ routes R
      /\ handler r = Terminal fn
      /\ method_differs r req = false
      /\ run_match L (match_ r) (pathOf req) = Ok (Some params)
      /\ urlParams c' !! reqId req = Some params
      /\ basePaths c' !! reqId req = Some (basePath R).
Proof.
  induction fuel as [|fuel IH]; intros self req c c' fn; simpl;
    [discriminate|].
  destruct (σ !! self) as [R|] eqn:Hself; [|discriminate].
  destruct (scan L (routes R) req) as [r params| |e] eqn:Hscan;
    [|discriminate|discriminate].
  destruct (scan_selected _ _ _ _ Hscan) as (Hin & Hm & Hr).
  destruct (handler r) as [fn'|sub] eqn:Hh.
  - intros [= <- <-]. exists self, R, r, params.
    repeat split; try assumption; simpl; apply lookup_insert_eq.
  - intros H. exact (IH sub req _ c' fn H).
Qed.
End RouteTable.

(** ** What [setBasePath] and [use] keep *)

Section Shape.
Import Router.

Lemma shape_insert (σ : Heap) (self : nat) (R R' : RouterObj) :
  σ !! self = Some R ->
  signature <$> routes R' = signature <$> routes R ->
  shape (<[self := R']> σ) = shape σ.
Proof.
  intros Hself Hsig. unfold shape. rewrite list_fmap_insert.
  apply list_insert_id. rewrite list_lookup_fmap, Hself. simpl.
  rewrite Hsig. reflexivity.
Qed.

Lemma shape_setRoute (σ : Heap) (self i : nat) (R : RouterObj)
  (old new : Route) :
  σ !! self = Some R ->
  routes R !! i = Some old ->
  signature new = signature old ->
  shape (setRoute self i new σ) = shape σ.
Proof.
  intros Hself Hi Hsig. unfold setRoute. rewrite Hself.
  apply (shape_insert σ self R); [exact Hself|]. simpl.
  rewrite list_fmap_insert. apply list_insert_id.
  rewrite list_lookup_fmap, Hi. simpl. rewrite Hsig. reflexivity.
Qed.

Lemma shape_setBasePath_route
  (rec : nat -> string -> Heap -> option Heap) (self i : nat) (σ σ' : Heap) :
  (forall sub bp τ τ', rec sub bp τ = Some τ' -> shape τ' = shape τ) ->
  setBasePath_route rec self i σ = Some σ' ->
  shape σ' = shape σ.
Proof.
  intros Hrec. unfold setBasePath_route.
  destruct (σ !! self) as [R|] eqn:Hself; [|discriminate]. simpl.
  destruct (routes R !! i) as [route|] eqn:Hi; [|discriminate]. simpl.
  destruct (handler route) as [fn|sub] eqn:Hh.
  - intros [= <-]. eapply shape_setRoute; [exact Hself | exact Hi |].
    unfold signature. simpl. rewrite Hh. reflexivity.
  - intros H. rewrite (Hrec _ _ _ _ H).
    eapply shape_setRoute; [exact Hself | exact Hi |].
    unfold signature. simpl. rewrite Hh. reflexivity.
Qed.

Lemma shape_loop (rec : nat -> string -> Heap -> option Heap) (self : nat)
  (idx : list nat) :
  (forall sub bp τ τ', rec sub bp τ = Some τ' -> shape τ' = shape τ) ->
  forall (acc : option Heap) (σ σ' : Heap),
    acc = Some σ ->
    foldl (fun acc i => acc ≫= setBasePath_route rec self i) acc idx = Some σ' ->
    shape σ' = shape σ.
Proof.
  intros Hrec. induction idx as [|i idx IH]; intros acc σ σ' -> ; simpl.
  - intros [= <-]. reflexivity.
  - destruct (setBasePath_route rec self i σ) as [σ1|] eqn:H1.
    + intros H. rewrite (IH _ σ1 σ' eq_refl H).
      eapply shape_setBasePath_route; eassumption.
    + intros H. exfalso. clear -H.
      induction idx as [|j idx IHidx]; simpl in H; [discriminate | auto].
Qed.

Lemma shape_setBasePath (fuel : nat) :
  forall (self : nat) (bp : string) (σ σ' : Heap),
    setBasePath fuel self bp σ = Some σ' ->
    shape σ' = shape σ.
Proof.
  induction fuel as [|fuel IH]; intros self bp σ σ'; simpl; [discriminate|].
  destruct (σ !! self) as [R|] eqn:Hself; [|discriminate]. simpl.
  intros H.
  rewrite (shape_loop (setBasePath fuel) self _ IH _ _ σ' eq_refl H).
  apply (shape_insert σ self R); [exact Hself | reflexivity].
Qed.

(** X7.  Whenever [setBasePath] returns, the heap has as many routers as
    it had, and each router has the routes it had, in the same order, with
    the same methods and the same handlers: the call only rewrites base
    paths, stored paths and matchers. *)
Theorem setBasePath_keeps_shape (fuel : nat) (self : nat) (bp : string)
  (σ σ' : Heap) :
  setBasePath fuel self bp σ = Some σ' ->
  length σ' = length σ
  /\ forall (i : nat) (R : RouterObj),
       σ !! i = Some R ->
       exists R',
         σ' !! i = Some R'
         /\ method <$> routes R' = method <$> routes R
         /\ handler <$> routes R' = handler <$> routes R.
Proof.
  intros H. pose proof (shape_setBasePath _ _ _ _ _ H) as Hshape. split.
  - apply (f_equal length) in Hshape. unfold shape in Hshape.
    rewrite !length_fmap in Hshape. exact Hshape.
  - intros i R Hi.
    assert (Hl : shape σ' !! i = Some (signature <$> routes R)).
    { rewrite Hshape. unfold shape. rewrite list_lookup_fmap, Hi. reflexivity. }
    unfold shape in Hl. rewrite list_lookup_fmap in Hl.
    destruct (σ' !! i) as [R'|]; [|discriminate].
    injection Hl as Hsig. exists R'. split; [reflexivity|].
    split.
    + apply (f_equal (fmap fst)) in Hsig.
      rewrite <- !list_fmap_compose in Hsig. exact Hsig.
    + apply (f_equal (fmap snd)) in Hsig.
      rewrite <- !list_fmap_compose in Hsig. exact Hsig.
Qed.

(** X8.  When [use] returns, it has appended to the router exactly one
    route, without a method and with the handler given; every other route
    of every router is where it was, with its method and its handler, also
    when the handler is a router whose base path [use] sets. *)
Theorem use_appends_one_route (fuel : nat) (σ σ' : Heap) (self : nat)
  (p : string) (h : HandlerRef) :
  use fuel self p h σ = Some σ' ->
  exists sig,
    shape σ !! self = Some sig
    /\ shape σ' = <[self := sig ++ [(None, h)]]> (shape σ).
Proof.
  unfold use, push.
  destruct (σ !! self) as [R|] eqn:Hself; [|discriminate]. simpl.
  destruct (match h with
            | Terminal _ => Some σ
            | Mountable sub => setBasePath fuel sub (basePath R +:+ p) σ
            end) as [σ1|] eqn:H1; [|discriminate]. simpl.
  assert (Hshape : shape σ1 = shape σ).
  { destruct h as [fn|sub]; [injection H1 as <-; reflexivity|].
    eapply shape_setBasePath. exact H1. }
  destruct (σ1 !! self) as [R1|] eqn:Hself1; [|discriminate]. simpl.
  intros [= <-].
  exists (signature <$> routes R). split.
  - unfold shape. rewrite list_lookup_fmap, Hself. reflexivity.
  - assert (Hsig : signature <$> routes R1 = signature <$> routes R).
    { assert (H : shape σ1 !! self = shape σ !! self) by (rewrite Hshape; reflexivity).
      unfold shape in H. rewrite !list_lookup_fmap, Hself, Hself1 in H.
      simpl in H. congruence. }
    unfold shape at 1. rewrite list_fmap_insert. simpl.
    rewrite fmap_app, Hsig. fold (shape σ1). rewrite Hshape. reflexivity.
Qed.
End Shape.

(** X9.  On a router all of whose handlers are plain functions,
    [setBasePath] returns whatever the fuel left; it changes that router
    only, sets its base path, and leaves each route its method, declared
    path and handler, with a matcher anchored at the end and compiled for
    the new base path followed by the declared path, less one trailing
    ['/']. *)
Theorem setBasePath_rederives_plain_routes (fuel self : nat) (bp : string)
  (σ : Router.Heap) (R : Router.RouterObj) :
  σ !! self = Some R ->
  Forall Router.plain (Router.routes R) ->
  exists σ' R',
    Router.setBasePath (S fuel) self bp σ = Some σ'
    /\ σ' !! self = Some R'
    /\ (forall other, other <> self -> σ' !! other = σ !! other)
    /\ Router.basePath R' = bp
    /\ length (Router.routes R') = length (Router.routes R)
    /\ forall i r, Router.routes R !! i = Some r ->
         Router.routes R' !! i
         = Some {| Router.method := Router.method r;
                   Router.path := Router.path r;
                   Router.handler := Router.handler r;
                   Router.match_ :=
                     {| Router.options := routeOptions;
                        Router.pattern :=
                          Router.trimTrailing (bp +:+ Router.path r) |} |}.
Proof.
  intros Hself Hplain.
  pose proof (lookup_lt_Some _ _ _ Hself) as Hlt.
  eexists. eexists. split; [apply setBasePath_plain; eassumption|].
  split; [apply list_lookup_insert_eq; exact Hlt|].
  split; [intros other Hne; apply list_lookup_insert_ne; congruence|].
  simpl. split; [reflexivity|]. split; [apply length_fmap|].
  intros i r Hi. rewrite list_lookup_fmap, Hi. reflexivity.
Qed.

Lemma use_mounts_plain_router_eq (fuel self sub : nat) (p : string)
  (σ : Router.Heap) (R S0 : Router.RouterObj) :
  σ !! self = Some R ->
  σ !! sub = Some S0 ->
  sub <> self ->
  Forall Router.plain (Router.routes S0) ->
  Router.use (S fuel) self p (Router.Mountable sub) σ
  = Some (<[self := {| Router.basePath := Router.basePath R;
                       Router.routes :=
                         Router.routes R ++
                         [{| Router.method := None; Router.path := p;
                             Router.handler := Router.Mountable sub;
                             Router.match_ :=
                               Router.subAppMatch (Router.basePath R +:+ p) |}] |}]>
            (<[sub := {| Router.basePath := Router.basePath R +:+ p;
                         Router.routes :=
                           Router.rederive (Router.basePath R +:+ p)
                             <$> Router.routes S0 |}]> σ)).
Proof.
  intros Hself Hsub Hne Hplain.
  unfold Router.use, Router.push.
  rewrite Hself. cbn [mbind option_bind].
  rewrite (setBasePath_plain fuel sub _ σ S0 Hsub Hplain).
  cbn [mbind option_bind].
  rewrite list_lookup_insert_ne by congruence.
  rewrite Hself. cbn [mbind option_bind]. rewrite ?Hself. reflexivity.
Qed.

(** X10.  Mounting with [use] a router whose handlers are all plain
    functions: [use] returns; the mounted router gets as base path the base
    path of the mounting router followed by the mount path, and its routes
    are compiled again for it; the mounting router gets one more route,
    without method, with the prefix matcher for that same path.  No other
    router changes. *)
Theorem use_mounts_plain_router (fuel self sub : nat) (p : string)
  (σ : Router.Heap) (R S0 : Router.RouterObj) :
  σ !! self = Some R ->
  σ !! sub = Some S0 ->
  sub <> self ->
  Forall Router.plain (Router.routes S0) ->
  let base := Router.basePath R +:+ p in
  exists σ',
    Router.use (S fuel) self p (Router.Mountable sub) σ = Some σ'
    /\ σ' !! sub
       = Some {| Router.basePath := base;
                 Router.routes := Router.rederive base <$> Router.routes S0 |}
    /\ σ' !! self
       = Some {| Router.basePath := Router.basePath R;
                 Router.routes :=
                   Router.routes R ++
                   [{| Router.method := None; Router.path := p;
                       Router.handler := Router.Mountable sub;
                       Router.match_ := Router.subAppMatch base |}] |}
    /\ forall other, other <> self -> other <> sub -> σ' !! other = σ !! other.
Proof.
  intros Hself Hsub Hne Hplain base.
  pose proof (lookup_lt_Some _ _ _ Hself) as Hlt1.
  pose proof (lookup_lt_Some _ _ _ Hsub) as Hlt2.
  eexists. split;
    [exact (use_mounts_plain_router_eq fuel self sub p σ R S0
              Hself Hsub Hne Hplain)|].
  split; [|split].
  - rewrite list_lookup_insert_ne by congruence.
    apply list_lookup_insert_eq. exact Hlt2.
  - apply list_lookup_insert_eq. rewrite length_insert. exact Hlt1.
  - intros other H1 H2.
    rewrite !list_lookup_insert_ne by congruence. reflexivity.
Qed.

(** ** [trimTrailing] *)

Lemma substring_append_all (s t : string) :
  String.substring 0 (String.length s) (s +:+ t) = s.
Proof.
  induction s as [|c s IH]; simpl.
  - destruct t; reflexivity.
  - rewrite IH. reflexivity.
Qed.

Lemma substring_all (t : string) :
  String.substring 0 (String.length t) t = t.
Proof. induction t as [|d t IH]; simpl; [reflexivity|]. rewrite IH. reflexivity. Qed.

Lemma substring_append_tail (s t : string) :
  String.substring (String.length s) (String.length t) (s +:+ t) = t.
Proof.
  induction s as [|c s IH]; simpl; [apply substring_all | exact IH].
Qed.

Lemma length_append (s t : string) :
  String.length (s +:+ t) = (String.length s + String.length t)%nat.
Proof. induction s as [|c s IH]; simpl; [reflexivity|]. rewrite IH. reflexivity. Qed.

(** X11.  [trimTrailing] takes one trailing ['/'] off, and only one: from
    [s/] it makes [s], whatever [s] ends with. *)
Theorem trimTrailing_removes_one_slash (s : string) :
  Router.trimTrailing (s +:+ "/") = s
  /\ (JsStr.endsWith s "/" = false -> Router.trimTrailing s = s).
Proof.
  split.
  - unfold Router.trimTrailing, JsStr.endsWith, JsStr.dropLast.
    rewrite length_append. simpl String.length.
    replace (String.length s + 1 - 1)%nat with (String.length s) by lia.
    assert (H1 : (1 <=? String.length s + 1)%nat = true)
      by (apply Nat.leb_le; lia).
    rewrite H1. simpl andb.
    pose proof (substring_append_tail s "/") as Ht. simpl String.length in Ht.
    rewrite Ht. simpl. apply substring_append_all.
  - intros Hno. unfold Router.trimTrailing. rewrite Hno. reflexivity.
Qed.

(** ** More on the matcher *)

(** The value the loop stores for a key. *)
Local Abbreviation stored :=
  (fun (key : Key) (d : string) =>
     if repeat key then PList (JsStr.split (delimiter key) d) else PStr d).

Lemma collect_provenance (ks : list Key) :
  forall (i : nat) (m : list (option string)) (params ps : Params)
         (nm : string) (v : ParamVal),
    collect i ks m params = Ok ps ->
    ps !! nm = Some v ->
    params !! nm = Some v
    \/ exists (j : nat) (key : Key) (p d : string),
         ks !! j = Some key /\ name key = nm
         /\ m !! (i + j + 1)%nat = Some (Some p) /\ p <> ""
         /\ URI.decodeURIComponent p = Some d /\ v = stored key d.
Proof.
  induction ks as [|k ks IH]; intros i m params ps nm v; simpl.
  - intros [= <-] H. left. exact H.
  - assert (Hshift : forall j key p d,
              ks !! j = Some key /\ name key = nm
              /\ m !! (S i + j + 1)%nat = Some (Some p) /\ p <> ""
              /\ URI.decodeURIComponent p = Some d /\ v = stored key d ->
              exists (j' : nat) (key' : Key) (p' d' : string),
                (k :: ks) !! j' = Some key' /\ name key' = nm
                /\ m !! (i + j' + 1)%nat = Some (Some p') /\ p' <> ""
                /\ URI.decodeURIComponent p' = Some d' /\ v = stored key' d').
    { intros j key p d (H1 & H2 & H3 & H4).
      exists (S j), key, p, d. repeat split; try tauto.
      replace (i + S j + 1)%nat with (S i + j + 1)%nat by lia. exact H3. }
    assert (Hskip : collect (S i) ks m params = Ok ps -> ps !! nm = Some v ->
              params !! nm = Some v
              \/ exists (j' : nat) (key' : Key) (p' d' : string),
                (k :: ks) !! j' = Some key' /\ name key' = nm
                /\ m !! (i + j' + 1)%nat = Some (Some p') /\ p' <> ""
                /\ URI.decodeURIComponent p' = Some d' /\ v = stored key' d').
    { intros Hc Hv. destruct (IH _ _ _ _ _ _ Hc Hv) as [H|(j & key & p & d & H)];
        [left; exact H | right; eapply Hshift; exact H]. }
    destruct (m !! (i + 1)%nat) as [[p|]|] eqn:Hm; try exact Hskip.
    destruct (String.eqb_spec p "") as [->|Hne]; [exact Hskip|].
    unfold decodeParam.
    destruct (URI.decodeURIComponent p) as [d|] eqn:Hd; simpl; [|discriminate].
    intros Hc Hv.
    destruct (IH _ _ _ _ _ _ Hc Hv) as [H|(j & key & p' & d' & H)].
    + destruct (decide (name k = nm)) as [Heq|Hneq].
      * right. exists 0%nat, k, p, d.
        rewrite Heq, lookup_insert_eq in H. injection H as <-.
        replace (i + 0 + 1)%nat with (i + 1)%nat by lia.
        repeat split; assumption.
      * left. rewrite lookup_insert_ne in H by exact Hneq. exact H.
    + right. eapply Hshift. exact H.
Qed.

Lemma collect_throw_provenance (ks : list Key) :
  forall (i : nat) (m : list (option string)) (params : Params) (e : ErrorObj),
    collect i ks m params = Throw e ->
    exists (j : nat) (key : Key) (p : string),
      ks !! j = Some key
      /\ m !! (i + j + 1)%nat = Some (Some p) /\ p <> ""
      /\ URI.decodeURIComponent p = None
      /\ e = createError 400
               ("failed to decode param " +:+ dquote +:+ p +:+ dquote).
Proof.
  induction ks as [|k ks IH]; intros i m params e; simpl; [discriminate|].
  assert (Hshift : collect (S i) ks m params = Throw e \/
                   (exists q, collect (S i) ks m q = Throw e) ->
            exists (j : nat) (key : Key) (p : string),
              (k :: ks) !! j = Some key
              /\ m !! (i + j + 1)%nat = Some (Some p) /\ p <> ""
              /\ URI.decodeURIComponent p = None
              /\ e = createError 400
                       ("failed to decode param " +:+ dquote +:+ p +:+ dquote)).
  { intros H.
    assert (exists q, collect (S i) ks m q = Throw e) as [q Hq]
      by (destruct H as [H|H]; eauto).
    destruct (IH _ _ _ _ Hq) as (j & key & p & H1 & H2 & H3).
    exists (S j), key, p. split; [exact H1|]. split; [|exact H3].
    replace (i + S j + 1)%nat with (S i + j + 1)%nat by lia. exact H2. }
  destruct (m !! (i + 1)%nat) as [[p|]|] eqn:Hm; try (intros H; apply Hshift; left; exact H).
  destruct (String.eqb_spec p "") as [->|Hne];
    [intros H; apply Hshift; left; exact H|].
  unfold decodeParam.
  destruct (URI.decodeURIComponent p) as [d|] eqn:Hd; simpl.
  - intros H. apply Hshift. right. eauto.
  - intros [= <-]. exists 0%nat, k, p.
    replace (i + 0 + 1)%nat with (i + 1)%nat by lia.
    repeat split; assumption.
Qed.

(** X12.  Every parameter a matcher reports bears the name of a key whose
    group captured a non-empty segment, and its value is that segment
    percent-decoded, split on the delimiter of the key when the key
    repeats.  Nothing else is reported: a key whose group captured nothing
    is absent from the result. *)
Theorem PathMatch_params_come_from_captures
  (lib : Options -> string -> Compiled) (o : Options) (path pathname : string)
  (ps : Params) (nm : string) (v : ParamVal) :
  PathMatch lib o path pathname = Ok (Some ps) ->
  ps !! nm = Some v ->
  exists (m : list (option string)) (j : nat) (key : Key) (p d : string),
    re_exec (lib o path) pathname = Some m
    /\ keys (lib o path) !! j = Some key /\ name key = nm
    /\ m !! (j + 1)%nat = Some (Some p) /\ p <> ""
    /\ URI.decodeURIComponent p = Some d
    /\ v = if repeat key then PList (JsStr.split (delimiter key) d)
           else PStr d.
Proof.
  unfold PathMatch, runCompiled.
  destruct (re_exec (lib o path) pathname) as [m|]; [|discriminate].
  destruct (collect 0 (keys (lib o path)) m ∅) as [ps'|e] eqn:Hc;
    simpl; [|discriminate].
  intros [= ->] Hv.
  destruct (collect_provenance _ _ _ _ _ _ _ Hc Hv)
    as [H|(j & key & p & d & H1 & H2 & H3 & H4 & H5 & H6)].
  - rewrite lookup_empty in H. discriminate.
  - exists m, j, key, p, d. repeat split; assumption.
Qed.

(** X13.  When no key is named [__proto__], the one name for which the
    assignment [params[key.name] = ...] is not a plain store, a matcher
    throws nothing but the error of [decodeParam]: when it throws, the
    expression matched and some group captured a non-empty segment that
    does not percent-decode; the error has [statusCode] 400, no [status],
    and a message that quotes that segment. *)
Theorem PathMatch_throws_only_decode_errors
  (lib : Options -> string -> Compiled) (o : Options) (path pathname : string)
  (e : ErrorObj) :
  Forall (fun key => name key <> "__proto__") (keys (lib o path)) ->
  PathMatch lib o path pathname = Throw e ->
  exists (m : list (option string)) (j : nat) (key : Key) (p : string),
    re_exec (lib o path) pathname = Some m
    /\ keys (lib o path) !! j = Some key
    /\ name key <> "__proto__"
    /\ m !! (j + 1)%nat = Some (Some p) /\ p <> ""
    /\ URI.decodeURIComponent p = None
    /\ Thrown.statusCode e = Some 400%nat
    /\ Thrown.status e = None
    /\ Thrown.message e = "failed to decode param " +:+ dquote +:+ p +:+ dquote.
Proof.
  intros Hnames. unfold PathMatch, runCompiled.
  destruct (re_exec (lib o path) pathname) as [m|]; [|discriminate].
  destruct (collect 0 (keys (lib o path)) m ∅) as [ps'|e'] eqn:Hc;
    simpl; [discriminate|].
  intros [= ->].
  destruct (collect_throw_provenance _ _ _ _ _ Hc)
    as (j & key & p & H1 & H2 & H3 & H4 & ->).
  exists m, j, key, p. repeat split; try assumption.
  rewrite Forall_lookup in Hnames. exact (Hnames j key H1).
Qed.

(** A string without ['%'] is its own decoding. *)
Lemma unescape_plain (s : string) :
  (forall i, String.get i s <> Some "%"%char) ->
  exists items,
    URI.unescape s = Some items /\ URI.assemble 0 0 0 items = Some s.
Proof.
  induction s as [|c s IH]; intros Hno; simpl.
  - exists []. split; reflexivity.
  - destruct (Ascii.eqb_spec c "%") as [->|Hc].
    + exfalso. apply (Hno 0%nat). reflexivity.
    + destruct IH as (items & H1 & H2).
      { intros i. exact (Hno (S i)). }
      rewrite H1. exists (URI.Raw c :: items). split; [reflexivity|].
      simpl. rewrite H2. reflexivity.
Qed.

(** X14.  [decodeParam] gives back unchanged a segment that has no ['%'];
    it never throws on one. *)
Theorem decodeParam_plain_segment (param : string) :
  (forall i, String.get i param <> Some "%"%char) ->
  decodeParam param = Ok param.
Proof.
  intros Hno. destruct (unescape_plain param Hno) as (items & H1 & H2).
  unfold decodeParam, URI.decodeURIComponent. rewrite H1. simpl.
  rewrite H2. reflexivity.
Qed.

(** ** More on getters *)

Section GetterMore.
Context {Args W : Type}.
Variable handler :
  ReqId -> Args -> Getter.World W -> Outcome Value Value * Getter.World W.

Local Abbreviation memo := (Getter.memo handler).
Local Abbreviation run := (Getter.run handler).

(** X15.  After [set(req, value)], a call for [req] returns [value] and
    does not invoke [computeFn], whether or not a value was there before;
    this is how the router hands over the URL parameters. *)
Theorem getter_set_then_call (st : Getter.State W) (req : ReqId)
  (value : Value) (args : Args) :
  memo req args (Getter.set req value st)
  = (Returned value, Getter.set req value st)
  /\ Getter.invocations req (snd (memo req args (Getter.set req value st)))
     = Getter.invocations req st.
Proof.
  assert (H : memo req args (Getter.set req value st)
              = (Returned value, Getter.set req value st)).
  { unfold Getter.memo. simpl. rewrite lookup_insert_eq. reflexivity. }
  split; [exact H|]. rewrite H. reflexivity.
Qed.

(** X16.  A call or a [set] for one request leaves the entry of every
    other request as it was, also when [computeFn] throws. *)
Theorem getter_requests_are_isolated (st : Getter.State W) (req other : ReqId)
  (args : Args) (value : Value) :
  other <> req ->
  Getter.reqWeakMap (snd (memo req args st)) !! other
  = Getter.reqWeakMap st !! other
  /\ Getter.reqWeakMap (Getter.set req value st) !! other
     = Getter.reqWeakMap st !! other.
Proof.
  intros Hne. split.
  - unfold Getter.memo.
    destruct (Getter.reqWeakMap st !! req); [reflexivity|].
    destruct (handler req args (Getter.world st)) as [[r|e] w']; simpl;
      [apply lookup_insert_ne; congruence | reflexivity].
  - simpl. apply lookup_insert_ne. congruence.
Qed.

Lemma step_keeps_entry (st : Getter.State W) (op : Getter.Op Args W)
  (req : ReqId) :
  is_Some (Getter.reqWeakMap st !! req) ->
  is_Some (Getter.reqWeakMap (Getter.step handler st op) !! req)
  /\ Getter.invocations req (Getter.step handler st op)
     = Getter.invocations req st.
Proof.
  intros [v Hv]. destruct op as [r args | r value | w]; simpl.
  - unfold Getter.memo.
    destruct (Getter.reqWeakMap st !! r) as [v0|] eqn:Hr; simpl;
      [split; [eauto | reflexivity]|].
    assert (r <> req) by congruence.
    unfold Getter.invocations.
    destruct (handler r args (Getter.world st)) as [[res|e] w']; simpl;
      rewrite filter_cons; simpl;
      destruct (decide (r = req)); try congruence;
      (split; [|reflexivity]).
    + rewrite lookup_insert_ne by assumption. eauto.
    + eauto.
  - split; [|reflexivity].
    destruct (decide (r = req)) as [->|Hne].
    + rewrite lookup_insert_eq. eauto.
    + rewrite lookup_insert_ne by assumption. eauto.
  - split; [eauto | reflexivity].
Qed.

(** X17.  Once a request has an entry, put there by a call or by [set], it
    has one for ever, and [computeFn] is never invoked for that request
    again, through any sequence of calls, [set]s and outside events. *)
Theorem getter_entry_is_permanent (ops : list (Getter.Op Args W)) :
  forall (st : Getter.State W) (req : ReqId),
    is_Some (Getter.reqWeakMap st !! req) ->
    is_Some (Getter.reqWeakMap (run ops st) !! req)
    /\ Getter.invocations req (run ops st) = Getter.invocations req st.
Proof.
  induction ops as [|op ops IH]; intros st req Hin; simpl; [auto|].
  destruct (step_keeps_entry st op req Hin) as [H1 H2].
  destruct (IH _ req H1) as [H3 H4]. split; [exact H3|]. congruence.
Qed.
End GetterMore.

(** ** More on the dispatcher *)

Section DispatcherMore.
Context {Num Obj Stream : Type}.
Variable JSON_stringify_number : Num -> string.
Variable JSON_stringify_object : Obj -> string.

Import Dispatcher.

Local Abbreviation Res := (@Dispatcher.ServerResponse Num Obj Stream).
Local Abbreviation send :=
  (Dispatcher.send JSON_stringify_number JSON_stringify_object).

Lemma getHeader_defaultType_other (name ty : string) (res : Res) :
  lowercase name <> lowercase "Content-Type" ->
  getHeader name (defaultType ty res) = getHeader name res.
Proof.
  intros Hne. unfold defaultType. destruct (unset "Content-Type" res);
    [|reflexivity].
  apply getHeader_setHeader_other. congruence.
Qed.

Lemma getHeader_defaultType_set (ty : string) (res : Res) :
  unset "Content-Type" res = false ->
  defaultType ty res = res.
Proof. intros H. unfold defaultType. rewrite H. reflexivity. Qed.

(** X18.  Whatever is sent, [base] writes no header but Content-Type and
    Content-Length, and it leaves alone a Content-Type that the handler has
    set on the response. *)
Theorem send_keeps_headers (raw : @Raw Num Obj Stream) (res : Res) :
  (forall name,
     lowercase name <> lowercase "Content-Type" ->
     lowercase name <> lowercase "Content-Length" ->
     getHeader name (send raw res) = getHeader name res)
  /\ (unset "Content-Type" res = false ->
      getHeader "Content-Type" (send raw res) = getHeader "Content-Type" res).
Proof.
  split.
  - intros name Hct Hcl. unfold Dispatcher.send.
    destruct (body match raw with Structured r => r | Plain b => reply b None None end);
      cbn [fst snd]; rewrite ?getHeader_finish;
      rewrite ?getHeader_setHeader_other by congruence;
      rewrite ?getHeader_defaultType_other by congruence;
      reflexivity.
  - intros Hset. unfold Dispatcher.send.
    assert (Hset' : forall code, unset "Content-Type" (setStatus code res) = false)
      by (intros code; exact Hset).
    destruct (body match raw with Structured r => r | Plain b => reply b None None end);
      cbn [fst snd]; rewrite ?getHeader_finish;
      rewrite ?getHeader_setHeader_other by discriminate;
      rewrite ?getHeader_defaultType_set by apply Hset';
      reflexivity.
Qed.

Section Handler.
Context {Req : Type}.
Variable handler : Req -> Res -> Outcome (@Raw Num Obj Stream) ErrorObj * Res.

Local Abbreviation base :=
  (Dispatcher.base JSON_stringify_number JSON_stringify_object handler).

(** X19.  The handler throws an error object and has not written to the
    response.  The status is the [statusCode] of the error when that is a
    number other than 0, else its [status] when that is one, else 500.
    When that status is one Node accepts, from 100 to 999, the error is
    logged, the response gets that status, [res.end] is given the message
    of the error, Content-Length is the length of the message and no
    Content-Type is added. *)
Theorem base_thrown_error
  (req : Req) (res res1 : Res) (console : list ErrorObj) (e : ErrorObj) :
  handler req res = (Threw e, res1) ->
  res_wire res1 = Open ->
  (100 <= errorStatus e <= 999)%nat ->
  let after := fst (base req res console) in
  snd (base req res console) = e :: console
  /\ res_statusCode after = errorStatus e
  /\ errorStatus e
     = match Thrown.statusCode e, Thrown.status e with
       | Some (S k), _ => S k
       | _, Some (S k) => S k
       | _, _ => 500%nat
       end
  /\ res_wire after = Ended (Some (BString (Thrown.message e)))
  /\ getHeader "Content-Length" after
     = Some (HNumber (String.length (Thrown.message e)))
  /\ getHeader "Content-Type" after = getHeader "Content-Type" res1.
Proof.
  intros Hh _ Hrange. unfold Dispatcher.base. rewrite Hh.
  assert (Hcode : errorStatus e
                  = match Thrown.statusCode e, Thrown.status e with
                    | Some (S k), _ => S k
                    | _, Some (S k) => S k
                    | _, _ => 500%nat
                    end).
  { unfold errorStatus, truthy.
    destruct (Thrown.statusCode e) as [[|k]|];
      destruct (Thrown.status e) as [[|k']|]; reflexivity. }
  destruct (errorStatus e) as [|code] eqn:Hs; [lia|].
  cbn [fst snd]. unfold Dispatcher.send. cbn [reply body statusCode default].
  split; [reflexivity|]. split; [reflexivity|]. split; [exact Hcode|].
  split; [reflexivity|]. split.
  - rewrite getHeader_finish. apply getHeader_setHeader.
  - rewrite getHeader_finish, getHeader_setHeader_other by discriminate.
    reflexivity.
Qed.
End Handler.
End DispatcherMore.

(** ** A request through a mount *)

Section ThroughMount.
Variable L : Library.
Import Router.

(** X22.  A router of plain routes is mounted with [use] at [p] in a router
    of base path [b].  For a request that no earlier route of the mounting
    router takes, whose pathname the prefix matcher for [b] followed by [p]
    accepts, and for which the mounted router, its routes compiled again,
    selects a route: the handler of that route is invoked, and what is
    cached for the request is the parameters of that route and, as base
    path, [b] followed by [p]. *)
Theorem dispatch_through_mount (fuel self sub : nat) (p : string)
  (σ σ' : Heap) (R S0 : RouterObj) (req : Request) (c : ReqCache)
  (ps0 params : Params) (r : Route) (fn : nat) :
  σ !! self = Some R ->
  σ !! sub = Some S0 ->
  sub <> self ->
  Forall plain (routes S0) ->
  use (S fuel) self p (Mountable sub) σ = Some σ' ->
  let base := basePath R +:+ p in
  scan L (routes R) req = NoRoute ->
  run_match L (subAppMatch base) (url_pathname L (req_url req))
  = Ok (Some ps0) ->
  scan L (rederive base <$> routes S0) req = Selected r params ->
  handler r = Terminal fn ->
  exists c',
    dispatch L (S (S fuel)) σ' self req c = Invoked fn c'
    /\ urlParams c' !! reqId req = Some params
    /\ basePaths c' !! reqId req = Some base.
Proof.
  intros Hself Hsub Hne Hplain Huse base Hnone Hmount Hsel Hfn.
  rewrite (use_mounts_plain_router_eq fuel self sub p σ R S0
             Hself Hsub Hne Hplain) in Huse.
  injection Huse as <-.
  pose proof (lookup_lt_Some _ _ _ Hself) as Hlt1.
  pose proof (lookup_lt_Some _ _ _ Hsub) as Hlt2.
  eexists. split.
  - cbn [dispatch].
    rewrite list_lookup_insert_eq by (rewrite length_insert; exact Hlt1).
    cbn [routes]. rewrite (scan_app L), Hnone. cbn [scan method_differs method].
    cbn [match_]. fold base. rewrite Hmount. cbn [handler].
    rewrite list_lookup_insert_ne by congruence.
    rewrite list_lookup_insert_eq by exact Hlt2.
    cbn [routes]. fold base. rewrite Hsel, Hfn. reflexivity.
  - simpl. split; apply lookup_insert_eq.
Qed.
End ThroughMount.

(** ** No route *)

Section NoRoute.
Context {Num Obj Stream : Type}.
Variable JSON_stringify_number : Num -> string.
Variable JSON_stringify_object : Obj -> string.
Variable L : Library.
Variable terminal :
  nat -> Request -> ReqCache -> @Dispatcher.ServerResponse Num Obj Stream ->
  Outcome (@Dispatcher.Raw Num Obj Stream) ErrorObj
  * @Dispatcher.ServerResponse Num Obj Stream.
Import Router Dispatcher.

End NoRoute.

(** ** The further properties at concrete inputs *)

Lemma scan_selected_sound_witness :
  let req := Model.GET 1 "/abc?sort=asc" in
  exists earlier later,
    Router.routes Model.table = earlier ++ Model.abcRoute :: later
    /\ Forall (fun r' => Router.method_differs r' req = true
                         \/ Router.run_match Model.lib (Router.match_ r')
                              (url_pathname Model.lib (req_url req)) = Ok None)
              earlier
    /\ Router.method_differs Model.abcRoute req = false
    /\ Router.run_match Model.lib (Router.match_ Model.abcRoute)
         (url_pathname Model.lib (req_url req)) = Ok (Some ∅).
Proof.
  intros req.
  apply (scan_selected_sound Model.lib (Router.routes Model.table) req
           Model.abcRoute ∅).
  vm_compute. reflexivity.
Defined.


Lemma scan_reads_method_and_pathname_witness :
  Router.scan Model.lib (Router.routes Model.table) (Model.GET 1 "/abc?sort=asc")
  = Router.scan Model.lib (Router.routes Model.table) (Model.GET 2 "/abc?page=3#top").
Proof.
  apply (scan_reads_method_and_pathname Model.lib (Router.routes Model.table)
           (Model.GET 1 "/abc?sort=asc") (Model.GET 2 "/abc?page=3#top"));
    reflexivity.
Defined.

Lemma addRoute_keeps_earlier_matches_witness :
  let σ' := Model.heapOf (Router.addRoute 0 "GET" "/:any" (Router.Terminal 9)
                            [Model.table]) in
  exists R',
    σ' !! 0%nat = Some R'
    /\ Router.basePath R' = ""
    /\ Router.routes R' = Router.routes Model.table ++
         [{| Router.method := Some "GET"; Router.path := "/:any";
             Router.handler := Router.Terminal 9;
             Router.match_ := Router.routeMatch "/:any" |}]
    /\ (Router.scan Model.lib (Router.routes Model.table)
          (Model.GET 1 "/abc") <> Router.NoRoute ->
        Router.scan Model.lib (Router.routes R') (Model.GET 1 "/abc")
        = Router.scan Model.lib (Router.routes Model.table) (Model.GET 1 "/abc")).
Proof.
  intros σ'.
  apply (addRoute_keeps_earlier_matches Model.lib [Model.table] σ' 0%nat
           Model.table "GET" "/:any" (Router.Terminal 9) (Model.GET 1 "/abc"));
    reflexivity.
Defined.

Lemma dispatch_isolates_requests_witness :
  exists c',
    Router.cache_of (Router.dispatch Model.lib 10 (Model.heapOf Model.nested3) 0
                       (Model.GET 1 "/a/b/foo") Model.otherCache) = Some c'
    /\ urlParams c' !! 2%nat = Some {[ "id" := PStr "9" ]}
    /\ basePaths c' !! 2%nat = Some "/other".
Proof.
  eexists. split; [vm_compute; reflexivity|].
  apply (dispatch_isolates_requests Model.lib 10 (Model.heapOf Model.nested3)
           0%nat (Model.GET 1 "/a/b/foo") Model.otherCache _ 2%nat).
  - vm_compute. reflexivity.
  - discriminate.
Defined.

Lemma dispatch_invoked_sound_witness :
  let σ := Model.heapOf Model.nested3 in
  let req := Model.GET 1 "/a/b/foo" in
  let c' := {| urlParams := {[ 1%nat := {[ "x" := PStr "foo" ]} ]};
               basePaths := {[ 1%nat := "/a/b" ]} |} in
  exists (owner : nat) (R : Router.RouterObj) (r : Router.Route) (params : Params),
    σ !! owner = Some R
    /\ r ∈ Router.routes R
    /\ Router.handler r = Router.Terminal 7
    /\ Router.method_differs r req = false
    /\ Router.run_match Model.lib (Router.match_ r)
         (url_pathname Model.lib (req_url req)) = Ok (Some params)
    /\ urlParams c' !! reqId req = Some params
    /\ basePaths c' !! reqId req = Some (Router.basePath R).
Proof.
  intros σ req c'.
  apply (dispatch_invoked_sound Model.lib 10 σ 0%nat req Model.emptyCache
           c' 7%nat).
  vm_compute. reflexivity.
Defined.

Lemma setBasePath_keeps_shape_witness :
  let σ := Model.heapOf Model.appWithSub in
  let σ' := Model.heapOf (Router.setBasePath 5 0 "/api" σ) in
  length σ' = length σ
  /\ forall (i : nat) (R : Router.RouterObj),
       σ !! i = Some R ->
       exists R',
         σ' !! i = Some R'
         /\ Router.method <$> Router.routes R' = Router.method <$> Router.routes R
         /\ Router.handler <$> Router.routes R'
            = Router.handler <$> Router.routes R.
Proof.
  intros σ σ'.
  apply (setBasePath_keeps_shape 5 0%nat "/api" σ σ').
  vm_compute. reflexivity.
Defined.

Lemma use_appends_one_route_witness :
  let σ := Model.heapOf Model.appWithSub in
  exists sig,
    Router.shape σ !! 2%nat = Some sig
    /\ Router.shape (Model.heapOf (Router.use 5 2 "/api" (Router.Mountable 0) σ))
       = <[2%nat := sig ++ [(None, Router.Mountable 0)]]> (Router.shape σ).
Proof.
  intros σ.
  apply (use_appends_one_route 5 σ
           (Model.heapOf (Router.use 5 2 "/api" (Router.Mountable 0) σ))
           2%nat "/api" (Router.Mountable 0)).
  vm_compute. reflexivity.
Defined.

Lemma table_is_plain : Forall Router.plain (Router.routes Model.table).
Proof. repeat constructor; eexists; reflexivity. Defined.

Lemma setBasePath_rederives_plain_routes_witness :
  exists σ' R',
    Router.setBasePath 1 0 "/v1" [Model.table] = Some σ'
    /\ σ' !! 0%nat = Some R'
    /\ (forall other, other <> 0%nat ->
          σ' !! other = [Model.table] !! other)
    /\ Router.basePath R' = "/v1"
    /\ length (Router.routes R') = 3%nat
    /\ forall i r, Router.routes Model.table !! i = Some r ->
         Router.routes R' !! i
         = Some {| Router.method := Router.method r;
                   Router.path := Router.path r;
                   Router.handler := Router.handler r;
                   Router.match_ :=
                     {| Router.options := routeOptions;
                        Router.pattern :=
                          Router.trimTrailing ("/v1" +:+ Router.path r) |} |}.
Proof.
  apply (setBasePath_rederives_plain_routes 0 0%nat "/v1" [Model.table]
           Model.table eq_refl table_is_plain).
Defined.

Lemma setBasePath_plain_idempotent_witness :
  exists σ1,
    Router.setBasePath 1 0 "/v1" [Model.table] = Some σ1
    /\ Router.setBasePath 1 0 "/v1" σ1 = Some σ1.
Proof.
  apply (setBasePath_plain_idempotent 0 0%nat "/v1" [Model.table]
           Model.table eq_refl table_is_plain).
Defined.

Lemma use_mounts_plain_router_witness :
  exists σ',
    Router.use 1 0 "/v1" (Router.Mountable 1) [Model.emptyRouter; Model.table]
    = Some σ'
    /\ σ' !! 1%nat
       = Some {| Router.basePath := "/v1";
                 Router.routes :=
                   Router.rederive "/v1" <$> Router.routes Model.table |}
    /\ σ' !! 0%nat
       = Some {| Router.basePath := "";
                 Router.routes :=
                   [{| Router.method := None; Router.path := "/v1";
                       Router.handler := Router.Mountable 1;
                       Router.match_ := Router.subAppMatch "/v1" |}] |}
    /\ forall other, other <> 0%nat -> other <> 1%nat ->
         σ' !! other = [Model.emptyRouter; Model.table] !! other.
Proof.
  apply (use_mounts_plain_router 0 0%nat 1%nat "/v1"
           [Model.emptyRouter; Model.table] Model.emptyRouter Model.table
           eq_refl eq_refl).
  - discriminate.
  - exact table_is_plain.
Defined.

Lemma trimTrailing_removes_one_slash_witness :
  Router.trimTrailing ("/sub" +:+ "/") = "/sub"
  /\ Router.trimTrailing "/sub/deep" = "/sub/deep".
Proof.
  split.
  - apply (proj1 (trimTrailing_removes_one_slash "/sub")).
  - apply (proj2 (trimTrailing_removes_one_slash "/sub/deep")). reflexivity.
Defined.

Lemma PathMatch_params_come_from_captures_witness :
  exists (m : list (option string)) (j : nat) (key : Key) (p d : string),
    re_exec (PathToRegexp.pathToRegexp routeOptions "/user/:id") "/user/a%20b"
    = Some m
    /\ keys (PathToRegexp.pathToRegexp routeOptions "/user/:id") !! j = Some key
    /\ name key = "id"
    /\ m !! (j + 1)%nat = Some (Some p) /\ p <> ""
    /\ URI.decodeURIComponent p = Some d
    /\ PStr "a b" = if repeat key then PList (JsStr.split (delimiter key) d)
                    else PStr d.
Proof.
  apply (PathMatch_params_come_from_captures PathToRegexp.pathToRegexp
           routeOptions "/user/:id" "/user/a%20b"
           {[ "id" := PStr "a b" ]} "id" (PStr "a b")).
  - vm_compute. reflexivity.
  - vm_compute. reflexivity.
Defined.

Lemma PathMatch_throws_only_decode_errors_witness :
  exists (m : list (option string)) (j : nat) (key : Key) (p : string),
    re_exec (PathToRegexp.pathToRegexp routeOptions "/user/:id") "/user/%zz"
    = Some m
    /\ keys (PathToRegexp.pathToRegexp routeOptions "/user/:id") !! j = Some key
    /\ name key <> "__proto__"
    /\ m !! (j + 1)%nat = Some (Some p) /\ p <> ""
    /\ URI.decodeURIComponent p = None
    /\ Thrown.statusCode (createError 400
          ("failed to decode param " +:+ dquote +:+ "%zz" +:+ dquote))
       = Some 400%nat
    /\ Thrown.status (createError 400
          ("failed to decode param " +:+ dquote +:+ "%zz" +:+ dquote)) = None
    /\ Thrown.message (createError 400
          ("failed to decode param " +:+ dquote +:+ "%zz" +:+ dquote))
       = "failed to decode param " +:+ dquote +:+ p +:+ dquote.
Proof.
  apply (PathMatch_throws_only_decode_errors PathToRegexp.pathToRegexp
           routeOptions "/user/:id" "/user/%zz").
  - repeat constructor. discriminate.
  - vm_compute. reflexivity.
Defined.

Lemma decodeParam_plain_segment_witness : decodeParam "bobby" = Ok "bobby".
Proof.
  apply (decodeParam_plain_segment "bobby").
  intros i. do 6 (destruct i as [|i]; [discriminate|]). discriminate.
Defined.

Lemma getter_requests_are_isolated_witness :
  let st := Getter.set 2 (VText "kept") (Getter.fresh Model.world0) in
  Getter.reqWeakMap (snd (Getter.memo Model.throwing 1 tt st)) !! 2%nat
  = Some (VText "kept")
  /\ Getter.reqWeakMap (Getter.set 1 (VObject 5) st) !! 2%nat
     = Some (VText "kept").
Proof.
  intros st.
  apply (getter_requests_are_isolated Model.throwing st 1%nat 2%nat tt
           (VObject 5)).
  discriminate.
Defined.

Lemma getter_entry_is_permanent_witness :
  let st := Getter.set 1 (VObject 5) (Getter.fresh Model.world0) in
  let ops := [Getter.Call 1 tt; Getter.Elapse Model.world0;
              Getter.Call 2 tt; Getter.Call 1 tt] in
  is_Some (Getter.reqWeakMap (Getter.run Model.startAsync ops st) !! 1%nat)
  /\ Getter.invocations 1 (Getter.run Model.startAsync ops st) = 0%nat.
Proof.
  intros st ops.
  apply (getter_entry_is_permanent Model.startAsync ops st 1%nat).
  eexists. reflexivity.
Defined.

Lemma send_keeps_headers_witness :
  let after := Dispatcher.send Model.showNat Model.showArray
                 (Dispatcher.Plain (Dispatcher.BNumber 1234)) Model.htmlRes in
  Dispatcher.getHeader "X-Powered-By" after = Some (Dispatcher.HText "base")
  /\ Dispatcher.getHeader "Content-Type" after
     = Some (Dispatcher.HText "text/html").
Proof.
  intros after. split.
  - apply (proj1 (send_keeps_headers Model.showNat Model.showArray
                    (Dispatcher.Plain (Dispatcher.BNumber 1234)) Model.htmlRes)
             "X-Powered-By"); discriminate.
  - apply (proj2 (send_keeps_headers Model.showNat Model.showArray
                    (Dispatcher.Plain (Dispatcher.BNumber 1234)) Model.htmlRes)).
    reflexivity.
Defined.

Lemma base_thrown_error_witness :
  let after := fst (Model.jbase Model.throws400 tt Model.res0 []) in
  snd (Model.jbase Model.throws400 tt Model.res0 [])
  = [createError 400 "400 Error"]
  /\ Dispatcher.res_statusCode after = 400%nat
  /\ Dispatcher.errorStatus (createError 400 "400 Error") = 400%nat
  /\ Dispatcher.res_wire after
     = Dispatcher.Ended (Some (Dispatcher.BString "400 Error"))
  /\ Dispatcher.getHeader "Content-Length" after = Some (Dispatcher.HNumber 9)
  /\ Dispatcher.getHeader "Content-Type" after = None.
Proof.
  apply (base_thrown_error Model.showNat Model.showArray Model.throws400
           tt Model.res0 Model.res0 [] (createError 400 "400 Error")).
  - reflexivity.
  - reflexivity.
  - vm_compute. lia.
Defined.

Lemma dispatch_through_mount_witness :
  let σ' := Model.heapOf (Router.use 1 0 "/v1" (Router.Mountable 1)
                            [Model.emptyRouter; Model.table]) in
  exists c',
    Router.dispatch Model.lib 2 σ' 0 (Model.GET 1 "/v1/abc?sort=asc")
      Model.emptyCache = Router.Invoked 2 c'
    /\ urlParams c' !! 1%nat = Some ∅
    /\ basePaths c' !! 1%nat = Some "/v1".
Proof.
  intros σ'.
  apply (dispatch_through_mount Model.lib 0 0%nat 1%nat "/v1"
           [Model.emptyRouter; Model.table] σ' Model.emptyRouter Model.table
           (Model.GET 1 "/v1/abc?sort=asc") Model.emptyCache ∅ ∅
           (Router.rederive "/v1" Model.abcRoute) 2%nat eq_refl eq_refl).
  - discriminate.
  - exact table_is_plain.
  - reflexivity.
  - reflexivity.
  - vm_compute. reflexivity.
  - vm_compute. reflexivity.
  - reflexivity.
Defined.
